(** * bamboo-build-trigger: the deploy-confirmation-and-trigger workflow

    A shallow embedding of [server.py].  Coroutines become functions that
    take the answers of the outside world (the replies to the GET polls,
    the reply to the PUT) and return their outcome together with the
    trace of effects they performed and the clock reading at the end.

    Time is counted in microseconds and passes where a coroutine is
    suspended: in [asyncio.sleep], which lasts the interval plus a lag,
    and in the GET.  Rounding of [time.time()] is left out. *)

From Stdlib Require Import ZArith List Bool String Ascii Lia.
From Stdlib Require Import DecimalString.
Import ListNotations.

Local Open Scope string_scope.
Local Open Scope Z_scope.
Set Warnings "-register-all".

(** ** Python values that the program inspects *)

(** What [resp.json()] and [request.json()] hand back.  A dict is kept as
    an association list read by first match, which is how [dict.get] and
    [MultiDict.get] answer. *)
Inductive json : Type :=
  | JNull
  | JBool (b : bool)
  | JInt (n : Z)
  | JFloat (num den : Z)  (* a float, as the fraction num/den *)
  | JStr (s : string)
  | JArr (items : list json)
  | JObj (fields : list (string * json)).

(** Exceptions the modelled code can raise. *)
Inductive exn : Type :=
  | JSONDecodeError
  | ClientError
  | AttributeError
  | KeyError
  | IndexError
  | ValueError
  | TypeError
  | UnboundLocalError.

(** How a coroutine ends: it returns, it raises, the script of the
    environment's answers ran dry while it was still looping, or it left
    the part of Python that this embedding interprets. *)
Inductive outcome (A : Type) : Type :=
  | Returned (a : A)
  | Raised (e : exn)
  | Starved
  | Beyond.
Arguments Returned {A} a.
Arguments Raised {A} e.
Arguments Starved {A}.
Arguments Beyond {A}.

(** [bool(x)] of Python for a decoded JSON value. *)
Definition truthy (v : json) : bool :=
  match v with
  | JNull => false
  | JBool b => b
  | JInt n => negb (n =? 0)
  | JFloat num _ => negb (num =? 0)
  | JStr s => negb (s =? EmptyString)%string
  | JArr items => match items with [] => false | _ :: _ => true end
  | JObj fields => match fields with [] => false | _ :: _ => true end
  end.

(** [v == s] of Python for a decoded JSON value [v] and a [str] [s]:
    only a string can be equal to a string. *)
Definition eq_str (v : json) (s : string) : bool :=
  match v with
  | JStr t => (t =? s)%string
  | _ => false
  end.

(** [d.get(key)] on an association list. *)
Fixpoint assoc {A : Type} (key : string) (d : list (string * A)) : option A :=
  match d with
  | [] => None
  | (k, v) :: rest => if (k =? key)%string then Some v else assoc key rest
  end.

(** [x.get(key, default)]: an [AttributeError] unless [x] is a dict. *)
Definition py_get (x : json) (key : string) (default : json) : option json :=
  match x with
  | JObj fields =>
      match assoc key fields with
      | Some v => Some v
      | None => Some default
      end
  | _ => None
  end.

(** [js.get('app', {}).get('git_sha')]; [None] stands for the
    [AttributeError] raised when either receiver is not a dict. *)
Definition get_sha (js : json) : option json :=
  match py_get js "app" (JObj []) with
  | Some app => py_get app "git_sha" JNull
  | None => None
  end.

(** [str(n)] for a Python [int]. *)
Definition str_of_int (n : Z) : string := NilZero.string_of_int (Z.to_int n).

(** ** The validated payload *)

Record WatchRequest : Type := mkWatchRequest {
  info_url : string;
  git_sha : string;
  plan_key : string;
  build_number : Z
}.

(** What [schema().load] hands to the handler as [payload]: one request,
    a list of them when [many] was set, or [None]. *)
Inductive payload : Type :=
  | PayOne (wr : WatchRequest)
  | PayMany (wrs : list WatchRequest)
  | PayNone.

(** The [credentials] argument: [None], or a tuple. *)
Inductive credentials : Type :=
  | CredNone
  | CredTuple (items : list string).

(** [bool(credentials)]: [None] and the empty tuple are false. *)
Definition cred_truthy (c : credentials) : bool :=
  match c with
  | CredNone => false
  | CredTuple [] => false
  | CredTuple (_ :: _) => true
  end.

(** ** Effects *)

Inductive level : Type := DEBUG | INFO | ERROR.

Inductive logarg : Type :=
  | ArgInt (n : Z)
  | ArgPayload (p : payload)
  | ArgExn (e : exn).

(** The coroutine object built by [poll_for_up(...)] in the handler. *)
Record Task : Type := mkTask {
  task_js : payload;
  task_bamboo_url : string;
  task_credentials : credentials;
  task_retries : Z;
  task_interval : Z
}.

Inductive event : Type :=
  | EvLog (lvl : level) (fmt : string) (args : list logarg)
  | EvPrint (s : string)
  | EvSleep (seconds : Z)
  | EvGet (url : string) (headers : list (string * string))
  | EvPut (url : string) (headers : list (string * string))
          (auth : option (string * string))
  | EvCreateTask (t : Task)
  | EvEnter (coroutine : string).

Definition is_get (e : event) : bool :=
  match e with EvGet _ _ => true | _ => false end.

Definition is_put (e : event) : bool :=
  match e with EvPut _ _ _ => true | _ => false end.

Definition is_enter (name : string) (e : event) : bool :=
  match e with EvEnter c => (c =? name)%string | _ => false end.

Definition count (p : event -> bool) (tr : list event) : nat :=
  List.length (filter p tr).

(** The result of running a coroutine: outcome, effects in order, and the
    clock (microseconds) when it ended. *)
Record run (A : Type) : Type := mkRun {
  res : outcome A;
  trace : list event;
  clock : Z
}.
Arguments mkRun {A} res trace clock.
Arguments res {A} r.
Arguments trace {A} r.
Arguments clock {A} r.

(** Effects [pre] happened before the run [r]. *)
Definition after {A : Type} (pre : list event) (r : run A) : run A :=
  mkRun (res r) (pre ++ trace r)%list (clock r).

(** ** [str.format] with the keywords [plan_key] and [build_number] *)

Inductive fmt_result : Type :=
  | Formatted (s : string)
  | FormatRaises (e : exn)
  | FormatBeyond.

Definition fmt_map (f : string -> string) (r : fmt_result) : fmt_result :=
  match r with
  | Formatted s => Formatted (f s)
  | FormatRaises e => FormatRaises e
  | FormatBeyond => FormatBeyond
  end.

(** Where the scanner is: in literal text, just after a lone [{], inside
    a replacement field, or just after a lone [}]. *)
Inductive fstate : Type :=
  | Lit
  | Open
  | Field (name : string)
  | Close.

Definition is_digit (c : ascii) : bool :=
  let n := nat_of_ascii c in (48 <=? n)%nat && (n <=? 57)%nat.

Fixpoint all_digits (s : string) : bool :=
  match s with
  | EmptyString => true
  | String c rest => is_digit c && all_digits rest
  end.

(** Characters that start a conversion, a format spec, an attribute or
    index lookup, or a nested field. *)
Definition field_special (c : ascii) : bool :=
  (c =? "!")%char || (c =? ":")%char || (c =? ".")%char
  || (c =? "[")%char || (c =? "{")%char.

(** The text a finished replacement field stands for.  No positional
    argument is passed, so an empty or numeric field is an [IndexError];
    a name other than the two keywords is a [KeyError]. *)
Definition field_value (name : string) (wr : WatchRequest) : fmt_result :=
  if (name =? "plan_key")%string then Formatted (plan_key wr)
  else if (name =? "build_number")%string
       then Formatted (str_of_int (build_number wr))
  else if all_digits name then FormatRaises IndexError
  else FormatRaises KeyError.

(** [template.format(plan_key=..., build_number=...)].  A field that uses
    a conversion, a format spec or a lookup is not interpreted:
    [FormatBeyond]. *)
Fixpoint format_from (st : fstate) (template : string) (wr : WatchRequest)
  : fmt_result :=
  match template with
  | EmptyString =>
      match st with
      | Lit => Formatted EmptyString
      | _ => FormatRaises ValueError
      end
  | String c rest =>
      match st with
      | Lit =>
          if (c =? "{")%char then format_from Open rest wr
          else if (c =? "}")%char then format_from Close rest wr
          else fmt_map (String c) (format_from Lit rest wr)
      | Open =>
          if (c =? "{")%char
          then fmt_map (String "{") (format_from Lit rest wr)
          else if (c =? "}")%char then FormatRaises IndexError
          else if field_special c then FormatBeyond
          else format_from (Field (String c EmptyString)) rest wr
      | Field name =>
          if (c =? "}")%char then
            match field_value name wr with
            | Formatted v =>
                fmt_map (append v) (format_from Lit rest wr)
            | other => other
            end
          else if field_special c then FormatBeyond
          else format_from (Field (name ++ String c EmptyString)) rest wr
      | Close =>
          if (c =? "}")%char
          then fmt_map (String "}") (format_from Lit rest wr)
          else FormatRaises ValueError
      end
  end.

Definition str_format (template : string) (wr : WatchRequest) : fmt_result :=
  format_from Lit template wr.

(** ** [trigger_build] *)

(** The double-quote character, as a string. *)
Definition dquote : string := String "034" EmptyString.

Definition queue_template : string :=
  "/rest/api/latest/queue/{plan_key}-{build_number}".

Definition json_headers : list (string * string) :=
  [("Accept", "application/json"); ("Content-Type", "application/json")].

(** How [aiohttp.put] answers: it raises, or a response arrives. *)
Inductive put_reply : Type :=
  | PutRaises
  | PutResponse (status : Z).

(** Lines 95-97: the target URL.  [js['plan_key']] needs a dict. *)
Definition build_url (js : payload) (bamboo_url : string) : outcome string :=
  match js with
  | PayOne wr =>
      match str_format (bamboo_url ++ queue_template) wr with
      | Formatted url => Returned url
      | FormatRaises e => Raised e
      | FormatBeyond => Beyond
      end
  | PayMany _ | PayNone => Raised TypeError
  end.

(** Lines 106-107: [aiohttp.BasicAuth(credentials[0], credentials[1])]
    when [credentials] is truthy. *)
Definition build_auth (c : credentials) : outcome (option (string * string)) :=
  if cred_truthy c then
    match c with
    | CredTuple (user :: password :: _) => Returned (Some (user, password))
    | _ => Raised IndexError
    end
  else Returned None.

(** Lines 109-114: what is done with the reply. *)
Definition handle_put (reply : put_reply) (now : Z) : run unit :=
  match reply with
  | PutRaises => mkRun (Raised ClientError) [] now
  | PutResponse status =>
      if status =? 400 then
        mkRun (Returned tt) [EvLog ERROR "Next stage cannot be resumed" []] now
      else if status =? 200 then
        mkRun (Returned tt) [EvLog INFO "Build resumed" []] now
      else mkRun (Returned tt) [] now
  end.

Definition trigger_build (js : payload) (bamboo_url : string)
  (creds : credentials) (reply : put_reply) (now : Z) : run unit :=
  after [EvEnter "trigger_build"]
    match build_url js bamboo_url with
    | Returned url =>
        after [EvPrint ("Calling to " ++ dquote ++ url ++ dquote)]
          match build_auth creds with
          | Returned auth =>
              after [EvPut url json_headers auth] (handle_put reply now)
          | Raised e => mkRun (Raised e) [] now
          | Starved => mkRun Starved [] now
          | Beyond => mkRun Beyond [] now
          end
    | Raised e => mkRun (Raised e) [] now
    | Starved => mkRun Starved [] now
    | Beyond => mkRun Beyond [] now
    end.

(** ** [wait_for_deploy] *)

(** What [resp.json()] does: it raises, or yields the decoded body. *)
Inductive json_reply : Type :=
  | JsonRaises
  | JsonValue (js : json).

(** How [aiohttp.get] answers: it raises, or a response arrives. *)
Inductive get_reply : Type :=
  | GetRaises
  | GetResponse (status : Z) (body : json_reply).

(** One iteration as the outside world shapes it: how long
    [asyncio.sleep] overshoots, the answer to the GET, and how long the
    GET and the reading of its body take (microseconds). *)
Record poll_step : Type := mkStep {
  sleep_lag : Z;
  get_answer : get_reply;
  get_time : Z
}.

Definition usec : Z := 1000000.

(** Time one iteration takes: [asyncio.sleep] returns at once for a
    delay that is not positive. *)
Definition step_time (interval : Z) (s : poll_step) : Z :=
  Z.max 0 interval * usec + sleep_lag s + get_time s.

Definition accept_json : list (string * string) :=
  [("Accept", "application/json")].

(** The verdict of lines 74-89 on one answer: the function returns
    [True], the loop goes round again, or the exception leaves the
    coroutine.  Each comes with what was logged. *)
Inductive verdict : Type :=
  | Match
  | Again
  | Escapes (e : exn).

Definition examine (expected : string) (answer : get_reply)
  : verdict * list event :=
  match answer with
  | GetRaises => (Escapes ClientError, [])
  | GetResponse status body =>
      if negb (status =? 200) then
        (Again, [EvLog DEBUG "Bad Response, trying again in a few" []])
      else
        let okay := EvLog DEBUG "Response okay, checking sha..." [] in
        match body with
        | JsonRaises => (Again, [okay])
        | JsonValue js =>
            match get_sha js with
            | None => (Again, [okay])
            | Some sha =>
                if negb (truthy sha) then
                  (Again,
                   [okay; EvLog DEBUG "GIT SHA not found in the response" []])
                else if eq_str sha expected then
                  (Match, [okay; EvLog DEBUG "SHA Matched" []])
                else
                  (Again,
                   [okay; EvLog DEBUG "GIT SHA not expected, retrying..." []])
            end
        end
  end.

(** The [while] loop of lines 69-91, one [poll_step] per iteration. *)
Fixpoint wait_loop (url expected : string) (retries interval start : Z)
  (script : list poll_step) (now : Z) : run bool :=
  if now - start <=? retries * interval * usec then
    match script with
    | [] => mkRun Starved [] now
    | s :: rest =>
        let woke := now + Z.max 0 interval * usec + sleep_lag s in
        after [EvLog DEBUG "Waiting %ss before checking" [ArgInt interval];
               EvSleep interval;
               EvGet url accept_json]
          match examine expected (get_answer s) with
          | (Escapes e, logged) => mkRun (Raised e) logged woke
          | (Match, logged) => mkRun (Returned true) logged (woke + get_time s)
          | (Again, logged) =>
              after logged
                (wait_loop url expected retries interval start rest
                   (woke + get_time s))
          end
    end
  else
    mkRun (Returned false)
      [EvLog DEBUG "Task expired, deployment not found" []] now.

Definition wait_for_deploy (url expected : string) (retries interval : Z)
  (script : list poll_step) (now : Z) : run bool :=
  wait_loop url expected retries interval now script now.

(** ** [poll_for_up] *)

Definition poll_for_up (js : payload) (bamboo_url : string)
  (creds : credentials) (retries interval : Z)
  (script : list poll_step) (reply : put_reply) (now : Z) : run unit :=
  after [EvLog INFO "Waiting for service %s to boot" [ArgPayload js]]
    match js with
    | PayOne wr =>
        let polled :=
          wait_for_deploy (info_url wr) (git_sha wr) retries interval
            script now in
        after (trace polled)
          match res polled with
          | Returned false =>
              mkRun (Returned tt)
                [EvLog INFO "Timed out waiting for the deploy" []]
                (clock polled)
          | Returned true =>
              after [EvLog INFO "Deploy confirmed, triggering next phase" []]
                (trigger_build js bamboo_url creds reply (clock polled))
          | Raised e => mkRun (Raised e) [] (clock polled)
          | Starved => mkRun Starved [] (clock polled)
          | Beyond => mkRun Beyond [] (clock polled)
          end
    | PayMany _ | PayNone => mkRun (Raised TypeError) [] now
    end.

(** Running the task that the handler created. *)
Definition run_task (t : Task) (script : list poll_step) (reply : put_reply)
  (now : Z) : run unit :=
  poll_for_up (task_js t) (task_bamboo_url t) (task_credentials t)
    (task_retries t) (task_interval t) script reply now.

(** ** The HTTP handler *)

(** [app]: the process configuration read at start-up. *)
Record Config : Type := mkConfig {
  BAMBOO_URL : string;
  BAMBOO_USERNAME : string;
  BAMBOO_PASSWORD : string;
  MAX_RETRIES : Z;
  RETRY_INTERVAL : Z
}.

(** An inbound request, by the views the decorator takes of it:
    [request.method], [request.headers.get('Content-Type')],
    [request.GET], [await request.json(loads=json.loads)],
    [await request.post()], and the item [request['payload']]. *)
Record Request : Type := mkRequest {
  req_method : string;
  req_content_type : option string;
  req_GET : list (string * string);
  req_json : json_reply;
  req_post : list (string * string);
  req_payload : option payload
}.

Definition set_payload (request : Request) (p : payload) : Request :=
  mkRequest (req_method request) (req_content_type request)
    (req_GET request) (req_json request) (req_post request) (Some p).

Record Response : Type := mkResponse {
  status : Z;
  body : json
}.

(** [web.json_response(data, status=status)]. *)
Definition json_response (data : json) (status : Z) : Response :=
  mkResponse status data.

(** What a handler call amounts to: its outcome and its effects. *)
Definition handled : Type := (outcome Response * list event)%type.

(** [needle in hay] for two strings. *)
Fixpoint contains (needle hay : string) : bool :=
  String.prefix needle hay
  || match hay with
     | EmptyString => false
     | String _ rest => contains needle rest
     end.

(** A [MultiDict] of strings, seen as a mapping. *)
Definition multidict (items : list (string * string)) : json :=
  JObj (map (fun kv => (fst kv, JStr (snd kv))) items).

Definition is_list (data : json) : bool :=
  match data with JArr _ => true | _ => false end.

(** A schema, by its [load(data, many=many)]: the pair [(payload, err)]. *)
Definition Schema : Type := json -> bool -> payload * json.

(** Lines 146-152: where the data to load comes from.  For a method
    outside both tuples [to_load] is never bound. *)
Definition to_load (request : Request) : outcome json :=
  if (req_method request =? "GET")%string then
    Returned (multidict (req_GET request))
  else if (req_method request =? "PUT")%string
          || (req_method request =? "POST")%string
          || (req_method request =? "PATCH")%string then
    if contains "application/json"
         (match req_content_type request with
          | Some v => v
          | None => EmptyString
          end)
    then
      match req_json request with
      | JsonRaises => Raised JSONDecodeError
      | JsonValue v => Returned v
      end
    else Returned (multidict (req_post request))
  else Raised UnboundLocalError.

(** The decorator [consumes(schema, err_status=...)] applied to [f]. *)
Definition consumes (schema : Schema) (err_status : Z)
  (f : Request -> handled) (request : Request) : handled :=
  match to_load request with
  | Returned data =>
      let many := is_list data in
      let (loaded, err) := schema data many in
      if truthy err then (Returned (json_response err err_status), [])
      else f (set_payload request loaded)
  | Raised e => (Raised e, [])
  | Starved => (Starved, [])
  | Beyond => (Beyond, [])
  end.

Definition decode_error : json :=
  JObj [("error", JStr "Unable to decode JSON")].

(** The decorator [api_error_handler] applied to [f]. *)
Definition api_error_handler (f : Request -> handled) (request : Request)
  : handled :=
  match f request with
  | (Raised JSONDecodeError, tr) =>
      (Returned (json_response decode_error 400),
       (tr ++ [EvLog ERROR "Unable to decode JSON: %s"
                 [ArgExn JSONDecodeError]])%list)
  | other => other
  end.

(** Lines 167-174: the body of [watcher_handler]. *)
Definition watcher_body (app : Config) (request : Request) : handled :=
  let creds := CredTuple [BAMBOO_USERNAME app; BAMBOO_PASSWORD app] in
  match req_payload request with
  | None => (Raised KeyError, [])
  | Some js =>
      let task :=
        mkTask js (BAMBOO_URL app) creds (MAX_RETRIES app)
          (RETRY_INTERVAL app) in
      (Returned (json_response (JObj []) 200), [EvCreateTask task])
  end.

(** ** [BuildWatcherSchema] *)

(** What deserializing one field gives. *)
Inductive field_result (A : Type) : Type :=
  | FieldOk (v : A)
  | FieldErr (msgs : list string).
Arguments FieldOk {A} v.
Arguments FieldErr {A} msgs.

(** The parts of marshmallow that the schema relies on and that are not
    part of this repository: the three field types, and what [load] does
    with data that is not a mapping. *)
Record Marshmallow : Type := mkMarshmallow {
  Url_deserialize : json -> field_result string;
  String_deserialize : json -> field_result string;
  Integer_deserialize : json -> field_result Z;
  load_other : json -> bool -> payload * json
}.

Definition missing_msg : string := "Missing data for required field.".

(** A field declared with [required=True]. *)
Definition required {A : Type} (deserialize : json -> field_result A)
  (name : string) (data : list (string * json)) : field_result A :=
  match assoc name data with
  | None => FieldErr [missing_msg]
  | Some v => deserialize v
  end.

Definition field_failed {A : Type} (r : field_result A) : bool :=
  match r with FieldOk _ => false | FieldErr _ => true end.

(** The entry of the error dict for one field. *)
Definition field_errors {A : Type} (name : string) (r : field_result A)
  : list (string * json) :=
  match r with
  | FieldOk _ => []
  | FieldErr msgs => [(name, JArr (map JStr msgs))]
  end.

Section BuildWatcherSchema.

Variable mm : Marshmallow.

(** Lines 129-132: the four declared fields, loaded from a mapping. *)
Definition load_mapping (data : list (string * json)) : payload * json :=
  let u := required (Url_deserialize mm) "info_url" data in
  let g := required (String_deserialize mm) "git_sha" data in
  let p := required (String_deserialize mm) "plan_key" data in
  let b := required (Integer_deserialize mm) "build_number" data in
  let err :=
    JObj (field_errors "info_url" u ++ field_errors "git_sha" g
          ++ field_errors "plan_key" p
          ++ field_errors "build_number" b)%list in
  match u, g, p, b with
  | FieldOk u', FieldOk g', FieldOk p', FieldOk b' =>
      (PayOne (mkWatchRequest u' g' p' b'), err)
  | _, _, _, _ => (PayNone, err)
  end.

Definition BuildWatcherSchema : Schema :=
  fun data many =>
    match data, many with
    | JObj fields, false => load_mapping fields
    | _, _ => load_other mm data many
    end.

(** Lines 164-166: [@consumes(BuildWatcherSchema)] outside,
    [@api_error_handler] inside. *)
Definition watcher_handler (app : Config) : Request -> handled :=
  consumes BuildWatcherSchema 400 (api_error_handler (watcher_body app)).

End BuildWatcherSchema.

(** ** Notions used in the statements *)

Definition is_log (e : event) : bool :=
  match e with EvLog _ _ _ => true | _ => false end.

Definition brace (c : ascii) : bool := (c =? "{")%char || (c =? "}")%char.

(** The string has no [{] and no [}]. *)
Fixpoint brace_free (s : string) : bool :=
  match s with
  | EmptyString => true
  | String c rest => negb (brace c) && brace_free rest
  end.

(** What every iteration does first (lines 70-73): the log, the sleep,
    the GET. *)
Definition prelude (url : string) (interval : Z) : list event :=
  [EvLog DEBUG "Waiting %ss before checking" [ArgInt interval];
   EvSleep interval;
   EvGet url accept_json].

(** The answer confirms the deploy: status 200, a body that decodes, and
    an [app.git_sha] that is truthy and equal to the expected one. *)
Definition confirms (expected : string) (answer : get_reply) : bool :=
  match answer with
  | GetResponse st (JsonValue js) =>
      (st =? 200)
      && match get_sha js with
         | Some sha => truthy sha && eq_str sha expected
         | None => false
         end
  | _ => false
  end.

(** The answer carries the expected sha: status 200, a body that decodes,
    and an [app.git_sha] equal to the expected one. *)
Definition sha_equal (expected : string) (answer : get_reply) : bool :=
  match answer with
  | GetResponse st (JsonValue js) =>
      (st =? 200)
      && match get_sha js with
         | Some sha => eq_str sha expected
         | None => false
         end
  | _ => false
  end.

(** The failures of one poll: a status other than 200, a body whose
    decoding raises, a lookup that raises, or an [app.git_sha] that is
    absent or falsy. *)
Definition absorbed (answer : get_reply) : bool :=
  match answer with
  | GetRaises => false
  | GetResponse st body =>
      negb (st =? 200)
      || match body with
         | JsonRaises => true
         | JsonValue js =>
             match get_sha js with
             | None => true
             | Some sha => negb (truthy sha)
             end
         end
  end.

(** A response arrived and did not confirm. *)
Definition no_match (expected : string) (answer : get_reply) : bool :=
  match answer with
  | GetRaises => false
  | GetResponse _ _ => negb (confirms expected answer)
  end.

(** The sleep did not end early and the GET took no negative time. *)
Definition well_timed (s : poll_step) : Prop :=
  0 <= sleep_lag s /\ 0 <= get_time s.

(** The response 200 with the body [{"app": {"git_sha": sha}}]. *)
Definition answer_sha (sha : string) : get_reply :=
  GetResponse 200 (JsonValue (JObj [("app", JObj [("git_sha", JStr sha)])])).

(** The messages of a failed field. *)
Definition messages {A : Type} (r : field_result A) : option (list string) :=
  match r with
  | FieldOk _ => None
  | FieldErr msgs => Some msgs
  end.

(** The messages for the required field [name] when it is missing from
    [data] or its value is rejected; [None] when the field loads, and for
    any other name. *)
Definition failure (mm : Marshmallow) (data : list (string * json))
  (name : string) : option (list string) :=
  if ("info_url" =? name)%string
  then messages (required (Url_deserialize mm) "info_url" data)
  else if ("git_sha" =? name)%string
  then messages (required (String_deserialize mm) "git_sha" data)
  else if ("plan_key" =? name)%string
  then messages (required (String_deserialize mm) "plan_key" data)
  else if ("build_number" =? name)%string
  then messages (required (Integer_deserialize mm) "build_number" data)
  else None.

(** A list of messages, as it stands in the error dict. *)
Definition messages_json (msgs : list string) : json := JArr (map JStr msgs).

(** A stand-in for the library, to run the handler on examples: a field
    takes a JSON string (an integer, for [Integer]) as it stands. *)
Definition plain_fields : Marshmallow :=
  mkMarshmallow
    (fun v => match v with
              | JStr s => FieldOk s
              | _ => FieldErr ["Not a valid URL."]
              end)
    (fun v => match v with
              | JStr s => FieldOk s
              | _ => FieldErr ["Not a valid string."]
              end)
    (fun v => match v with
              | JInt n => FieldOk n
              | _ => FieldErr ["Not a valid integer."]
              end)
    (fun _ _ =>
       (PayNone, JObj [("_schema", JArr [JStr "Invalid input type."])])).

(** Sample inputs. *)
Definition sample_config : Config := mkConfig "http://ci" "bob" "pw" 6 10.

Definition sample_body : list (string * json) :=
  [("info_url", JStr "https://x/status"); ("git_sha", JStr "abc123");
   ("plan_key", JStr "REL"); ("build_number", JInt 42)].

Definition post_json (body : json_reply) : Request :=
  mkRequest "POST" (Some "application/json") [] body [] None.

Definition anonymous_config : Config :=
  mkConfig "http://ci" EmptyString EmptyString 6 10.

(** ** Further notions used in the statements *)

Definition is_sleep (e : event) : bool :=
  match e with EvSleep _ => true | _ => false end.

(** Sleeps and polls, the two things the poller waits on. *)
Definition is_io (e : event) : bool := is_sleep e || is_get e.

(** [n] rounds of a sleep of [interval] seconds followed by a GET of
    [url] that accepts JSON. *)
Fixpoint rounds (url : string) (interval : Z) (n : nat) : list event :=
  match n with
  | O => []
  | S k => EvSleep interval :: EvGet url accept_json :: rounds url interval k
  end.

(** The budget in microseconds. *)
Definition budget (retries interval : Z) : Z := retries * interval * usec.

(** The sleep overshot and the GET took no negative time. *)
Definition overshoots (s : poll_step) : Prop :=
  0 < sleep_lag s /\ 0 <= get_time s.

(** The answers to the first [n] polls. *)
Definition polled (n : nat) (script : list poll_step) : list get_reply :=
  map get_answer (firstn n script).

(** ** [resolve_request] and decorated calls *)






(** ** Start-up configuration *)

(** [os.environ[key]]. *)
Definition environ_item (environ : list (string * string)) (key : string)
  : outcome string :=
  match assoc key environ with
  | Some v => Returned v
  | None => Raised KeyError
  end.

(** [int(os.getenv(key, default))]; [py_int] is [int] on a [str]. *)
Definition int_setting (py_int : string -> option Z)
  (environ : list (string * string)) (key : string) (default : Z)
  : outcome Z :=
  match assoc key environ with
  | None => Returned default
  | Some text =>
      match py_int text with
      | Some n => Returned n
      | None => Raised ValueError
      end
  end.

(** Sequencing of two steps that may raise. *)
Definition and_then {A B : Type} (x : outcome A) (k : A -> outcome B)
  : outcome B :=
  match x with
  | Returned a => k a
  | Raised e => Raised e
  | Starved => Starved
  | Beyond => Beyond
  end.

(** Lines 22-26: the keyword arguments of [app.update], in order. *)
Definition app_config (py_int : string -> option Z)
  (environ : list (string * string)) : outcome Config :=
  and_then (environ_item environ "BAMBOO_URL") (fun url =>
  and_then (environ_item environ "BAMBOO_USERNAME") (fun user =>
  and_then (environ_item environ "BAMBOO_PASSWORD") (fun password =>
  and_then (int_setting py_int environ "MAX_RETRIES" 6) (fun retries =>
  and_then (int_setting py_int environ "RETRY_INTERVAL" 10) (fun interval =>
  Returned (mkConfig url user password retries interval)))))).

(** What a start-up setting must be for the value [n] to come out of it:
    unset with [n] the default, or set to a text that [int] reads as
    [n]. *)
Definition setting_gives (py_int : string -> option Z)
  (environ : list (string * string)) (key : string) (default n : Z) : Prop :=
  match assoc key environ with
  | None => n = default
  | Some text => py_int text = Some n
  end.

(** A reader of plain decimal numerals, to run examples. *)
Definition plain_int (text : string) : option Z :=
  option_map Z.of_int (NilZero.int_of_string text).

(** The method is one of those the decorator knows. *)
Definition known_method (method : string) : bool :=
  (method =? "GET")%string || (method =? "PUT")%string
  || (method =? "POST")%string || (method =? "PATCH")%string.

(** The header names JSON somewhere in its value. *)
Definition json_content (request : Request) : bool :=
  contains "application/json"
    (match req_content_type request with
     | Some v => v
     | None => EmptyString
     end).

(** The names of the four declared fields. *)
Definition declared : list string :=
  ["info_url"; "git_sha"; "plan_key"; "build_number"].

(** * Properties *)

(** ** Traces *)

Lemma trace_after {A : Type} (pre : list event) (r : run A) :
  trace (after pre r) = (pre ++ trace r)%list.
Proof. reflexivity. Qed.

Lemma res_after {A : Type} (pre : list event) (r : run A) :
  res (after pre r) = res r.
Proof. reflexivity. Qed.

Lemma clock_after {A : Type} (pre : list event) (r : run A) :
  clock (after pre r) = clock r.
Proof. reflexivity. Qed.

Lemma after_after {A : Type} (pre mid : list event) (r : run A) :
  after pre (after mid r) = after (pre ++ mid) r.
Proof. unfold after; simpl. now rewrite app_assoc. Qed.

Lemma count_app (p : event -> bool) (xs ys : list event) :
  count p (xs ++ ys) = (count p xs + count p ys)%nat.
Proof. unfold count. now rewrite filter_app, length_app. Qed.

(** ** [trigger_build] *)

Lemma handle_put_only_logs (reply : put_reply) (now : Z) :
  filter is_put (trace (handle_put reply now)) = []
  /\ filter (is_enter "trigger_build") (trace (handle_put reply now)) = [].
Proof.
  destruct reply as [|st]; simpl; [now split|].
  destruct (st =? 400); [now split|].
  destruct (st =? 200); now split.
Qed.

(** The PUT requests in a run of [trigger_build]: one when both the URL
    and the authentication could be built, none otherwise. *)
Lemma trigger_build_puts js bamboo_url creds reply now :
  filter is_put (trace (trigger_build js bamboo_url creds reply now)) =
  match build_url js bamboo_url, build_auth creds with
  | Returned url, Returned auth => [EvPut url json_headers auth]
  | _, _ => []
  end.
Proof.
  unfold trigger_build.
  destruct (build_url js bamboo_url) as [url|e| |]; simpl; try reflexivity.
  destruct (build_auth creds) as [auth|e| |]; simpl; try reflexivity.
  now rewrite (proj1 (handle_put_only_logs reply now)).
Qed.

(** A run of [trigger_build] is entered exactly once. *)
Lemma trigger_build_entered_once js bamboo_url creds reply now :
  count (is_enter "trigger_build")
    (trace (trigger_build js bamboo_url creds reply now)) = 1%nat.
Proof.
  unfold trigger_build, count.
  destruct (build_url js bamboo_url) as [url|e| |]; simpl; try reflexivity.
  destruct (build_auth creds) as [auth|e| |]; simpl; try reflexivity.
  now rewrite (proj2 (handle_put_only_logs reply now)).
Qed.



(** *** The target URL *)

Lemma append_empty_r (s : string) : s ++ EmptyString = s.
Proof. induction s as [|c s IH]; simpl; [reflexivity|now rewrite IH]. Qed.

Lemma fmt_map_append (v : string) (r : fmt_result) (c : ascii) :
  fmt_map (String c) (fmt_map (append v) r)
  = fmt_map (append (String c v)) r.
Proof. now destruct r. Qed.

(** Literal text without braces is copied as it stands. *)
Lemma format_literal_prefix (base tail : string) (wr : WatchRequest) :
  brace_free base = true ->
  format_from Lit (base ++ tail) wr
  = fmt_map (append base) (format_from Lit tail wr).
Proof.
  induction base as [|c base IH]; simpl; intros Hfree.
  - now destruct (format_from Lit tail wr).
  - apply andb_prop in Hfree as [Hc Hrest].
    unfold brace in Hc. apply negb_true_iff, orb_false_elim in Hc as [Ho Hc].
    rewrite Ho, Hc, (IH Hrest). apply fmt_map_append.
Qed.

Lemma format_queue_template (wr : WatchRequest) :
  format_from Lit queue_template wr
  = Formatted ("/rest/api/latest/queue/" ++ plan_key wr ++ "-"
               ++ str_of_int (build_number wr)).
Proof.
  unfold queue_template. cbn. now rewrite append_empty_r.
Qed.

(** For a base URL without braces the target is the base URL, the queue
    path, the plan key, a hyphen and the build number. *)
Lemma build_url_plain (wr : WatchRequest) (bamboo_url : string) :
  brace_free bamboo_url = true ->
  build_url (PayOne wr) bamboo_url
  = Returned (bamboo_url ++ "/rest/api/latest/queue/" ++ plan_key wr ++ "-"
              ++ str_of_int (build_number wr)).
Proof.
  intros Hfree. unfold build_url, str_format.
  rewrite (format_literal_prefix _ _ _ Hfree), format_queue_template.
  reflexivity.
Qed.

(** C9: the code formats the base URL together with the queue path.  At
    the base URL [http://ci/{plan_key}] the PUT goes to a URL that is not
    the base URL followed by the queue path, the plan key, a hyphen and
    the build number; at the base URL [http://ci/{}] formatting raises
    and no PUT is made at all. *)
Theorem trigger_build_formats_base_url :
  let wr := mkWatchRequest "https://x/status" "abc123" "REL" 42 in
  let expected_tail :=
    "/rest/api/latest/queue/" ++ plan_key wr ++ "-"
    ++ str_of_int (build_number wr) in
  let r := trigger_build (PayOne wr) "http://ci/{plan_key}" CredNone
             (PutResponse 200) 0 in
  let r' := trigger_build (PayOne wr) "http://ci/{}" CredNone
              (PutResponse 200) 0 in
  filter is_put (trace r)
    = [EvPut "http://ci/REL/rest/api/latest/queue/REL-42" json_headers None]
  /\ "http://ci/REL/rest/api/latest/queue/REL-42"
     <> "http://ci/{plan_key}" ++ expected_tail
  /\ res r' = Raised IndexError
  /\ filter is_put (trace r') = [].
Proof.
  cbv zeta. repeat split; try reflexivity. discriminate.
Qed.

(** ** [wait_for_deploy] *)

Section Loop.

Variables (url expected : string) (retries interval start : Z).

Lemma wait_loop_expired (script : list poll_step) (now : Z) :
  retries * interval * usec < now - start ->
  wait_loop url expected retries interval start script now
  = mkRun (Returned false)
      [EvLog DEBUG "Task expired, deployment not found" []] now.
Proof.
  intros Hlate. apply Z.leb_gt in Hlate.
  destruct script; simpl; now rewrite Hlate.
Qed.

Lemma wait_loop_starved (now : Z) :
  now - start <= retries * interval * usec ->
  wait_loop url expected retries interval start [] now = mkRun Starved [] now.
Proof.
  intros Hin. apply Z.leb_le in Hin.
  simpl; now rewrite Hin.
Qed.

Lemma wait_loop_step (s : poll_step) (rest : list poll_step) (now : Z) :
  now - start <= retries * interval * usec ->
  wait_loop url expected retries interval start (s :: rest) now
  = after (prelude url interval)
      match examine expected (get_answer s) with
      | (Escapes e, logged) =>
          mkRun (Raised e) logged
            (now + Z.max 0 interval * usec + sleep_lag s)
      | (Match, logged) =>
          mkRun (Returned true) logged (now + step_time interval s)
      | (Again, logged) =>
          after logged
            (wait_loop url expected retries interval start rest
               (now + step_time interval s))
      end.
Proof.
  intros Hin. apply Z.leb_le in Hin.
  replace (now + step_time interval s)
    with (now + Z.max 0 interval * usec + sleep_lag s + get_time s)
    by (unfold step_time; ring).
  simpl. rewrite Hin. reflexivity.
Qed.

Lemma examine_logs (answer : get_reply) :
  Forall (fun e => is_log e = true) (snd (examine expected answer)).
Proof.
  destruct answer as [|st body]; simpl; [constructor|].
  destruct (st =? 200); simpl; [|repeat constructor].
  destruct body as [|js]; simpl; [repeat constructor|].
  destruct (get_sha js) as [sha|]; [|repeat constructor].
  destruct (truthy sha); simpl; [|repeat constructor].
  destruct (eq_str sha expected); repeat constructor.
Qed.

Lemma filter_logs_nil (p : event -> bool) (tr : list event) :
  (forall e, is_log e = true -> p e = false) ->
  Forall (fun e => is_log e = true) tr ->
  filter p tr = [].
Proof.
  intros Hp Htr. induction Htr as [|e tr He _ IH]; simpl; [reflexivity|].
  now rewrite (Hp e He).
Qed.

(** The loop only logs, sleeps and polls. *)
Lemma wait_loop_trace_only (p : event -> bool)
  (script : list poll_step) (now : Z) :
  (forall e, is_log e = true -> p e = false) ->
  (forall seconds, p (EvSleep seconds) = false) ->
  (forall u h, p (EvGet u h) = false) ->
  filter p (trace (wait_loop url expected retries interval start script now))
  = [].
Proof.
  intros Hlog Hsleep Hget. revert now.
  induction script as [|s rest IH]; intros now;
    destruct (Z.le_gt_cases (now - start) (retries * interval * usec))
      as [Hin|Hlate].
  - now rewrite wait_loop_starved.
  - rewrite wait_loop_expired by lia. simpl. now rewrite Hlog.
  - rewrite wait_loop_step by exact Hin.
    rewrite trace_after, filter_app. unfold prelude at 1. simpl.
    rewrite Hlog, Hsleep, Hget by reflexivity. simpl.
    pose proof (examine_logs (get_answer s)) as Hlogged.
    destruct (examine expected (get_answer s)) as [[| |e] logged]; simpl in *.
    + now apply filter_logs_nil.
    + rewrite filter_app, IH. rewrite app_nil_r. now apply filter_logs_nil.
    + now apply filter_logs_nil.
  - rewrite wait_loop_expired by lia. simpl. now rewrite Hlog.
Qed.

End Loop.

Lemma wait_for_deploy_trace_only (p : event -> bool)
  url expected retries interval script now :
  (forall e, is_log e = true -> p e = false) ->
  (forall seconds, p (EvSleep seconds) = false) ->
  (forall u h, p (EvGet u h) = false) ->
  filter p (trace (wait_for_deploy url expected retries interval script now))
  = [].
Proof. intros; unfold wait_for_deploy; now apply wait_loop_trace_only. Qed.

Lemma log_is_not_put (e : event) : is_log e = true -> is_put e = false.
Proof. now destruct e. Qed.

Lemma log_is_not_enter (name : string) (e : event) :
  is_log e = true -> is_enter name e = false.
Proof. now destruct e. Qed.

(** ** [poll_for_up] *)

(** What a run of [poll_for_up] on one request leaves in its trace, seen
    through a filter that lets no log, sleep or GET through. *)
Lemma poll_for_up_filtered (p : event -> bool)
  wr bamboo_url creds retries interval script reply now :
  (forall e, is_log e = true -> p e = false) ->
  (forall seconds, p (EvSleep seconds) = false) ->
  (forall u h, p (EvGet u h) = false) ->
  let polled :=
    wait_for_deploy (info_url wr) (git_sha wr) retries interval script now in
  filter p (trace (poll_for_up (PayOne wr) bamboo_url creds retries interval
                     script reply now))
  = match res polled with
    | Returned true =>
        filter p (trace (trigger_build (PayOne wr) bamboo_url creds reply
                           (clock polled)))
    | _ => []
    end.
Proof.
  intros Hlog Hsleep Hget polled. unfold poll_for_up. fold polled.
  rewrite !trace_after. simpl. rewrite Hlog by reflexivity.
  rewrite filter_app.
  unfold polled at 1.
  rewrite (wait_for_deploy_trace_only p) by assumption. simpl.
  destruct (res polled) as [[|]|e| |]; simpl; try reflexivity.
  - now rewrite Hlog.
  - now rewrite Hlog.
Qed.

(** C2: in a run of [poll_for_up] on a watch request, [trigger_build] is
    entered exactly once when [wait_for_deploy] returned [True]; when it
    returned [False] (or did not return) [trigger_build] is never entered
    and no PUT is made. *)
Theorem poll_for_up_triggers_once_iff_confirmed
  (wr : WatchRequest) (bamboo_url : string) (creds : credentials)
  (retries interval : Z) (script : list poll_step) (reply : put_reply)
  (now : Z) :
  let polled :=
    wait_for_deploy (info_url wr) (git_sha wr) retries interval script now in
  let r := poll_for_up (PayOne wr) bamboo_url creds retries interval
             script reply now in
  match res polled with
  | Returned true =>
      count (is_enter "trigger_build") (trace r) = 1%nat
      /\ res r = res (trigger_build (PayOne wr) bamboo_url creds reply
                        (clock polled))
  | Returned false =>
      count (is_enter "trigger_build") (trace r) = 0%nat
      /\ count is_put (trace r) = 0%nat
      /\ res r = Returned tt
  | _ =>
      count (is_enter "trigger_build") (trace r) = 0%nat
      /\ count is_put (trace r) = 0%nat
  end.
Proof.
  intros polled r.
  assert (Henter :
    filter (is_enter "trigger_build") (trace r)
    = match res polled with
      | Returned true =>
          filter (is_enter "trigger_build")
            (trace (trigger_build (PayOne wr) bamboo_url creds reply
                      (clock polled)))
      | _ => []
      end).
  { apply poll_for_up_filtered; auto using log_is_not_enter. }
  assert (Hput :
    filter is_put (trace r)
    = match res polled with
      | Returned true =>
          filter is_put
            (trace (trigger_build (PayOne wr) bamboo_url creds reply
                      (clock polled)))
      | _ => []
      end).
  { apply poll_for_up_filtered; auto using log_is_not_put. }
  assert (Hres :
    res r = match res polled with
            | Returned true =>
                res (trigger_build (PayOne wr) bamboo_url creds reply
                       (clock polled))
            | Returned false => Returned tt
            | Raised e => Raised e
            | Starved => Starved
            | Beyond => Beyond
            end).
  { subst r. unfold poll_for_up. fold polled. rewrite !res_after.
    now destruct (res polled) as [[|]|e| |]. }
  assert (Centered :
    count (is_enter "trigger_build") (trace r)
    = match res polled with Returned true => 1%nat | _ => 0%nat end).
  { unfold count at 1. rewrite Henter.
    destruct (res polled) as [[|]|e| |]; try reflexivity.
    apply trigger_build_entered_once. }
  assert (Cput :
    match res polled with
    | Returned true => True
    | _ => count is_put (trace r) = 0%nat
    end).
  { unfold count. rewrite Hput. now destruct (res polled) as [[|]|e| |]. }
  rewrite Centered, Hres.
  destruct (res polled) as [[|]|e| |]; repeat split; assumption.
Qed.

(** ** The poller: matches, failures and the budget *)

Lemma examine_verdict (expected : string) (answer : get_reply) :
  fst (examine expected answer)
  = match answer with
    | GetRaises => Escapes ClientError
    | GetResponse _ _ => if confirms expected answer then Match else Again
    end.
Proof.
  destruct answer as [|st [|js]]; simpl; [reflexivity| |].
  - now destruct (st =? 200).
  - destruct (st =? 200); simpl; [|reflexivity].
    destruct (get_sha js) as [sha|]; [|reflexivity].
    destruct (truthy sha); simpl; [|reflexivity].
    now destruct (eq_str sha expected).
Qed.

Lemma absorbed_no_match (expected : string) (answer : get_reply) :
  absorbed answer = true -> no_match expected answer = true.
Proof.
  destruct answer as [|st [|js]]; simpl; [discriminate| |].
  - now destruct (st =? 200).
  - destruct (st =? 200); simpl; [|reflexivity].
    destruct (get_sha js) as [sha|]; [|reflexivity].
    now destruct (truthy sha).
Qed.

Lemma no_match_again (expected : string) (answer : get_reply) :
  no_match expected answer = true ->
  fst (examine expected answer) = Again.
Proof.
  rewrite examine_verdict. destruct answer as [|st body]; [discriminate|].
  unfold no_match. now destruct (confirms expected (GetResponse st body)).
Qed.

Lemma confirms_match (expected : string) (answer : get_reply) :
  confirms expected answer = true ->
  fst (examine expected answer) = Match.
Proof.
  rewrite examine_verdict. destruct answer as [|st body]; [discriminate|].
  now intros ->.
Qed.

Lemma log_is_not_get (e : event) : is_log e = true -> is_get e = false.
Proof. now destruct e. Qed.

Lemma count_logged_gets (expected : string) (answer : get_reply) :
  count is_get (snd (examine expected answer)) = 0%nat.
Proof.
  unfold count. rewrite (filter_logs_nil is_get); [reflexivity| |].
  - exact log_is_not_get.
  - apply examine_logs.
Qed.

Section Poller.

Variables (url expected : string) (retries interval start : Z).

(** One more round of the loop, when the answer sent it round again. *)
Lemma wait_loop_again (s : poll_step) (rest : list poll_step) (now : Z) :
  now - start <= retries * interval * usec ->
  fst (examine expected (get_answer s)) = Again ->
  wait_loop url expected retries interval start (s :: rest) now
  = after (prelude url interval ++ snd (examine expected (get_answer s)))
      (wait_loop url expected retries interval start rest
         (now + step_time interval s)).
Proof.
  intros Hin Hagain. rewrite wait_loop_step by exact Hin.
  destruct (examine expected (get_answer s)) as [v logged].
  simpl in Hagain. subst v. simpl. now rewrite after_after.
Qed.

(** C5: an iteration whose poll fails (status other than 200, body that
    does not decode or any error while reading it, [app.git_sha] absent)
    raises nothing and ends nothing: the verdict is to go round again,
    and the run is that of the loop on the remaining answers, with the
    same start and the same budget, after this iteration's effects. *)
Theorem absorbed_reply_continues
  (s : poll_step) (rest : list poll_step) (now : Z) :
  absorbed (get_answer s) = true ->
  now - start <= retries * interval * usec ->
  let next :=
    wait_loop url expected retries interval start rest
      (now + step_time interval s) in
  let r := wait_loop url expected retries interval start (s :: rest) now in
  fst (examine expected (get_answer s)) = Again
  /\ r = after (prelude url interval
                ++ snd (examine expected (get_answer s))) next
  /\ res r = res next
  /\ count is_get (trace r) = S (count is_get (trace next)).
Proof.
  intros Habs Hin next r.
  assert (Hagain : fst (examine expected (get_answer s)) = Again)
    by now apply no_match_again, absorbed_no_match.
  assert (Hr : r = after (prelude url interval
                          ++ snd (examine expected (get_answer s))) next)
    by now apply wait_loop_again.
  repeat split; try assumption.
  - now rewrite Hr.
  - rewrite Hr, trace_after, !count_app, count_logged_gets. reflexivity.
Qed.

(** A run in which every poll fails in one of these ways never raises and
    never returns [True]: it returns [False], or is still looping when
    the answers run out. *)
Lemma absorbed_run_never_raises (script : list poll_step) (now : Z) :
  Forall (fun s => absorbed (get_answer s) = true) script ->
  let r := wait_loop url expected retries interval start script now in
  res r = Returned false \/ res r = Starved.
Proof.
  revert now. induction script as [|s rest IH]; intros now Hall r; subst r;
    destruct (Z.le_gt_cases (now - start) (retries * interval * usec))
      as [Hin|Hlate];
    try (rewrite wait_loop_expired by lia; now left).
  - rewrite wait_loop_starved by exact Hin. now right.
  - inversion Hall as [|? ? Hs Hrest]; subst.
    rewrite wait_loop_again, res_after;
      [|exact Hin|now apply no_match_again, absorbed_no_match].
    now apply IH.
Qed.

(** A confirming answer to one of the polls that the loop issued ends the
    loop with [True], and that poll is its last. *)
Lemma wait_loop_first_match
  (script : list poll_step) (now : Z) (i : nat) (s : poll_step) :
  let r := wait_loop url expected retries interval start script now in
  (i < count is_get (trace r))%nat ->
  nth_error script i = Some s ->
  confirms expected (get_answer s) = true ->
  res r = Returned true /\ count is_get (trace r) = S i.
Proof.
  revert now i. induction script as [|s0 rest IH]; intros now i r Hi Hnth Hs.
  - destruct i; discriminate.
  - destruct (Z.le_gt_cases (now - start) (retries * interval * usec))
      as [Hin|Hlate].
    + subst r. rewrite wait_loop_step in * by exact Hin.
      pose proof (count_logged_gets expected (get_answer s0)) as Hlogged.
      destruct (examine expected (get_answer s0)) as [v logged] eqn:Hex.
      simpl in Hlogged.
      assert (Hv : fst (examine expected (get_answer s0)) = v)
        by now rewrite Hex.
      destruct v as [| |e].
      * rewrite trace_after, count_app in *. simpl in *.
        rewrite Hlogged in *. split; [reflexivity|].
        change (count is_get (prelude url interval)) with 1%nat in *. lia.
      * rewrite !trace_after, !count_app in *. rewrite Hlogged in *.
        change (count is_get (prelude url interval)) with 1%nat in *.
        destruct i as [|i'].
        -- simpl in Hnth. injection Hnth as ->.
           rewrite (confirms_match _ _ Hs) in Hv. discriminate.
        -- simpl in Hnth. rewrite !res_after.
           destruct (IH (now + step_time interval s0) i') as [Hres Hcount];
             [lia|assumption|assumption|].
           split; [assumption|lia].
      * rewrite trace_after, count_app in *. simpl in *.
        rewrite Hlogged in *.
        change (count is_get (prelude url interval)) with 1%nat in *.
        assert (i = 0%nat) by lia. subst i.
        simpl in Hnth. injection Hnth as ->.
        rewrite (confirms_match _ _ Hs) in Hv. discriminate.
    + subst r. rewrite wait_loop_expired in Hi by lia.
      simpl in Hi. unfold count in Hi. simpl in Hi. lia.
Qed.

End Poller.

(** C3 (amended): if one of the polls that a run of [wait_for_deploy]
    issued was answered with status 200 and a body whose [app.git_sha] is
    non-empty and equal to the expected sha, the run returns [True] at
    that iteration: the matching poll is the last GET it issued. *)
Theorem wait_for_deploy_returns_at_first_match
  (url expected : string) (retries interval : Z)
  (script : list poll_step) (now : Z) (i : nat) (s : poll_step) :
  let r := wait_for_deploy url expected retries interval script now in
  (i < count is_get (trace r))%nat ->
  nth_error script i = Some s ->
  confirms expected (get_answer s) = true ->
  res r = Returned true /\ count is_get (trace r) = S i.
Proof.
  unfold wait_for_deploy. apply wait_loop_first_match.
Qed.

Lemma absorbed_reply_continues_witness :
  let s := mkStep 0 (GetResponse 503 JsonRaises) 0 in
  let rest := [mkStep 0 (answer_sha "abc123") 0] in
  let next := wait_loop "https://x/status" "abc123" 2 1 0 rest
                (0 + step_time 1 s) in
  let r := wait_loop "https://x/status" "abc123" 2 1 0 (s :: rest) 0 in
  fst (examine "abc123" (get_answer s)) = Again
  /\ r = after (prelude "https://x/status" 1
                ++ snd (examine "abc123" (get_answer s))) next
  /\ res r = res next
  /\ count is_get (trace r) = S (count is_get (trace next)).
Proof.
  apply (absorbed_reply_continues "https://x/status" "abc123" 2 1 0
           (mkStep 0 (GetResponse 503 JsonRaises) 0)
           [mkStep 0 (answer_sha "abc123") 0] 0).
  - reflexivity.
  - vm_compute. discriminate.
Defined.

Lemma wait_for_deploy_returns_at_first_match_witness :
  let script := [mkStep 0 (answer_sha "old") 0;
                 mkStep 0 (answer_sha "abc123") 0;
                 mkStep 0 (answer_sha "abc123") 0] in
  let r := wait_for_deploy "https://x/status" "abc123" 2 1 script 0 in
  res r = Returned true /\ count is_get (trace r) = 2%nat.
Proof.
  apply (wait_for_deploy_returns_at_first_match "https://x/status" "abc123"
           2 1
           [mkStep 0 (answer_sha "old") 0;
            mkStep 0 (answer_sha "abc123") 0;
            mkStep 0 (answer_sha "abc123") 0]
           0 1%nat (mkStep 0 (answer_sha "abc123") 0)).
  - vm_compute. lia.
  - reflexivity.
  - reflexivity.
Defined.

(** C3 as stated fails when the expected sha is the empty string: the
    first response carries an equal [app.git_sha], yet the run polls
    again and ends with [False]. *)
Lemma empty_sha_is_never_confirmed :
  let s := mkStep 0 (answer_sha EmptyString) 0 in
  let r := wait_for_deploy "https://x/status" EmptyString 1 1 [s; s; s] 0 in
  sha_equal EmptyString (get_answer s) = true
  /\ res r = Returned false
  /\ count is_get (trace r) = 2%nat.
Proof. now vm_compute. Qed.

Section Timeout.

Variables (url expected : string) (retries interval start : Z).
Hypothesis interval_pos : 0 < interval.



End Timeout.

Lemma usec_pos : 0 < usec.
Proof. reflexivity. Qed.




(** ** The handler *)

(** C1: a POST whose JSON body does not decode makes [watcher_handler]
    raise the decode error: [consumes] reads the body outside
    [api_error_handler].  With the two decorators in the other order the
    same request is answered by status 400 and the decode-error body. *)
Theorem malformed_json_escapes_watcher_handler
  (mm : Marshmallow) (app : Config) :
  let request := post_json JsonRaises in
  watcher_handler mm app request = (Raised JSONDecodeError, [])
  /\ api_error_handler
       (consumes (BuildWatcherSchema mm) 400 (watcher_body app)) request
     = (Returned (json_response decode_error 400),
        [EvLog ERROR "Unable to decode JSON: %s" [ArgExn JSONDecodeError]]).
Proof. split; reflexivity. Qed.

(** C6: when the schema reports no error, the handler answers 200 with an
    empty JSON object, and all it did was to create the task of
    [poll_for_up] on the loaded payload: the task is not run, so no poll
    and no trigger is part of the handler's effects. *)
Theorem valid_payload_acknowledged
  (mm : Marshmallow) (app : Config) (request : Request)
  (data : json) (loaded : payload) (err : json) :
  to_load request = Returned data ->
  BuildWatcherSchema mm data (is_list data) = (loaded, err) ->
  truthy err = false ->
  watcher_handler mm app request
  = (Returned (json_response (JObj []) 200),
     [EvCreateTask
        (mkTask loaded (BAMBOO_URL app)
           (CredTuple [BAMBOO_USERNAME app; BAMBOO_PASSWORD app])
           (MAX_RETRIES app) (RETRY_INTERVAL app))]).
Proof.
  intros Hload Hschema Herr.
  unfold watcher_handler, consumes.
  rewrite Hload, Hschema, Herr. reflexivity.
Qed.

Lemma valid_payload_acknowledged_witness :
  watcher_handler plain_fields sample_config
    (post_json (JsonValue (JObj sample_body)))
  = (Returned (json_response (JObj []) 200),
     [EvCreateTask
        (mkTask (PayOne (mkWatchRequest "https://x/status" "abc123" "REL" 42))
           "http://ci" (CredTuple ["bob"; "pw"]) 6 10)]).
Proof.
  exact (valid_payload_acknowledged plain_fields sample_config
           (post_json (JsonValue (JObj sample_body))) (JObj sample_body)
           (PayOne (mkWatchRequest "https://x/status" "abc123" "REL" 42))
           (JObj []) eq_refl eq_refl eq_refl).
Defined.

Lemma assoc_field_errors {A : Type} (field name : string)
  (r : field_result A) (tail : list (string * json)) :
  assoc field (field_errors name r ++ tail)%list
  = if (name =? field)%string
    then match messages r with
         | Some msgs => Some (messages_json msgs)
         | None => assoc field tail
         end
    else assoc field tail.
Proof.
  destruct r as [v|msgs]; simpl.
  - now destruct (name =? field)%string.
  - reflexivity.
Qed.

(** The error dict of [load_mapping] names exactly the failing fields. *)
Lemma load_mapping_errors (mm : Marshmallow) (data : list (string * json)) :
  exists errs,
    snd (load_mapping mm data) = JObj errs
    /\ forall field,
         assoc field errs = option_map messages_json (failure mm data field).
Proof.
  unfold load_mapping, failure.
  set (u := required (Url_deserialize mm) "info_url" data).
  set (g := required (String_deserialize mm) "git_sha" data).
  set (p := required (String_deserialize mm) "plan_key" data).
  set (b := required (Integer_deserialize mm) "build_number" data).
  exists (field_errors "info_url" u ++ field_errors "git_sha" g
          ++ field_errors "plan_key" p ++ field_errors "build_number" b)%list.
  split.
  - now destruct u, g, p, b.
  - intros field.
    rewrite <- (app_nil_r (field_errors "build_number" b)).
    rewrite !assoc_field_errors. simpl assoc.
    destruct (String.eqb_spec "info_url" field) as [<-|_].
    { simpl. now destruct (messages u). }
    destruct (String.eqb_spec "git_sha" field) as [<-|_].
    { simpl. now destruct (messages g). }
    destruct (String.eqb_spec "plan_key" field) as [<-|_].
    { simpl. now destruct (messages p). }
    destruct (String.eqb_spec "build_number" field) as [<-|_].
    { simpl. now destruct (messages b). }
    reflexivity.
Qed.

(** C7: when the data to load is a mapping in which a required field is
    missing or rejected, the handler answers 400 with the error dict,
    which maps each failing field, and no other name, to the list of its
    messages; nothing else is done: no task is created. *)
Theorem invalid_payload_rejected
  (mm : Marshmallow) (app : Config) (request : Request)
  (data : list (string * json)) (name : string) (msgs : list string) :
  to_load request = Returned (JObj data) ->
  failure mm data name = Some msgs ->
  exists errs,
    watcher_handler mm app request
    = (Returned (json_response (JObj errs) 400), [])
    /\ forall field,
         assoc field errs = option_map messages_json (failure mm data field).
Proof.
  intros Hload Hfail.
  destruct (load_mapping_errors mm data) as (errs & Herrs & Hassoc).
  exists errs. split; [|exact Hassoc].
  unfold watcher_handler, consumes. rewrite Hload. simpl.
  destruct (load_mapping mm data) as [loaded err]. simpl in Herrs. subst err.
  assert (Htruthy : truthy (JObj errs) = true).
  { destruct errs as [|entry errs']; [|reflexivity].
    specialize (Hassoc name). rewrite Hfail in Hassoc. discriminate. }
  now rewrite Htruthy.
Qed.

Lemma invalid_payload_rejected_witness :
  exists errs,
    watcher_handler plain_fields sample_config
      (post_json (JsonValue (JObj [("git_sha", JStr "abc123");
                                   ("build_number", JStr "x")])))
    = (Returned (json_response (JObj errs) 400), [])
    /\ forall field,
         assoc field errs
         = option_map messages_json
             (failure plain_fields
                [("git_sha", JStr "abc123"); ("build_number", JStr "x")]
                field).
Proof.
  exact (invalid_payload_rejected plain_fields sample_config
           (post_json (JsonValue (JObj [("git_sha", JStr "abc123");
                                        ("build_number", JStr "x")])))
           [("git_sha", JStr "abc123"); ("build_number", JStr "x")]
           "info_url" [missing_msg] eq_refl eq_refl).
Defined.

(** The effects of the handler: nothing, or the creation of one task
    carrying the configured user name and password as a pair. *)
Lemma watcher_handler_effects
  (mm : Marshmallow) (app : Config) (request : Request) :
  snd (watcher_handler mm app request) = []
  \/ exists js,
       snd (watcher_handler mm app request)
       = [EvCreateTask
            (mkTask js (BAMBOO_URL app)
               (CredTuple [BAMBOO_USERNAME app; BAMBOO_PASSWORD app])
               (MAX_RETRIES app) (RETRY_INTERVAL app))].
Proof.
  unfold watcher_handler, consumes.
  destruct (to_load request) as [data|e| |]; try (now left).
  destruct (BuildWatcherSchema mm data (is_list data)) as [loaded err].
  destruct (truthy err); [now left|].
  right. exists loaded. reflexivity.
Qed.

(** The PUT requests of a task's run all carry the authentication built
    from the task's credentials. *)
Lemma run_task_puts (t : Task) (script : list poll_step) (reply : put_reply)
  (now : Z) (e : event) :
  In e (trace (run_task t script reply now)) ->
  is_put e = true ->
  exists url auth,
    build_auth (task_credentials t) = Returned auth
    /\ e = EvPut url json_headers auth.
Proof.
  intros Hin Hput.
  assert (Hfiltered :
    In e (filter is_put (trace (run_task t script reply now))))
    by (apply filter_In; now split).
  clear Hin. unfold run_task in Hfiltered.
  destruct (task_js t) as [wr|wrs|].
  - rewrite poll_for_up_filtered in Hfiltered
      by auto using log_is_not_put.
    destruct (res (wait_for_deploy _ _ _ _ _ _)) as [[|]|x| |];
      try contradiction.
    rewrite trigger_build_puts in Hfiltered.
    destruct (build_url (PayOne wr) (task_bamboo_url t)) as [url|x| |];
      try contradiction.
    destruct (build_auth (task_credentials t)) as [auth|x| |];
      try contradiction.
    destruct Hfiltered as [<-|[]]. now exists url, auth.
  - simpl in Hfiltered. contradiction.
  - simpl in Hfiltered. contradiction.
Qed.

(** C10: every task that the handler creates carries as credentials the
    pair of the configured user name and password; a pair is truthy
    whatever its components, so the authentication is built from it, and
    every PUT made by a run of the task carries Basic authentication
    with that user name and password, the empty ones included. *)
Theorem handler_tasks_always_authenticate
  (mm : Marshmallow) (app : Config) (request : Request) (t : Task) :
  In (EvCreateTask t) (snd (watcher_handler mm app request)) ->
  task_credentials t = CredTuple [BAMBOO_USERNAME app; BAMBOO_PASSWORD app]
  /\ cred_truthy (task_credentials t) = true
  /\ build_auth (task_credentials t)
     = Returned (Some (BAMBOO_USERNAME app, BAMBOO_PASSWORD app))
  /\ forall script reply now e,
       In e (trace (run_task t script reply now)) ->
       is_put e = true ->
       exists url,
         e = EvPut url json_headers
               (Some (BAMBOO_USERNAME app, BAMBOO_PASSWORD app)).
Proof.
  intros Hcreated.
  assert (Hcreds :
    task_credentials t
    = CredTuple [BAMBOO_USERNAME app; BAMBOO_PASSWORD app]).
  { destruct (watcher_handler_effects mm app request) as [Hnone|[js Hone]].
    - rewrite Hnone in Hcreated. contradiction.
    - rewrite Hone in Hcreated. destruct Hcreated as [Heq|[]].
      injection Heq as <-. reflexivity. }
  split; [exact Hcreds|].
  split; [now rewrite Hcreds|].
  split; [now rewrite Hcreds|].
  intros script reply now e Hin Hput.
  destruct (run_task_puts t script reply now e Hin Hput)
    as (url & auth & Hauth & ->).
  rewrite Hcreds in Hauth. injection Hauth as <-. now exists url.
Qed.

Lemma handler_tasks_always_authenticate_witness :
  let t := mkTask (PayOne (mkWatchRequest "https://x/status" "abc123" "REL" 42))
             "http://ci" (CredTuple [EmptyString; EmptyString]) 6 10 in
  task_credentials t = CredTuple [EmptyString; EmptyString]
  /\ cred_truthy (task_credentials t) = true
  /\ build_auth (task_credentials t)
     = Returned (Some (EmptyString, EmptyString))
  /\ forall script reply now e,
       In e (trace (run_task t script reply now)) ->
       is_put e = true ->
       exists url,
         e = EvPut url json_headers (Some (EmptyString, EmptyString)).
Proof.
  apply (handler_tasks_always_authenticate plain_fields anonymous_config
           (post_json (JsonValue (JObj sample_body)))).
  simpl. left. reflexivity.
Defined.

(** * Further properties *)

(** ** Reasoning by cases on the loop *)

Section LoopCases.

Variables (url expected : string) (retries interval start : Z).
Variable P : list poll_step -> Z -> run bool -> Prop.

Hypothesis P_expired :
  forall script now,
    budget retries interval < now - start ->
    P script now
      (mkRun (Returned false)
         [EvLog DEBUG "Task expired, deployment not found" []] now).

Hypothesis P_starved :
  forall now,
    now - start <= budget retries interval ->
    P [] now (mkRun Starved [] now).

Hypothesis P_match :
  forall s rest now,
    now - start <= budget retries interval ->
    fst (examine expected (get_answer s)) = Match ->
    P (s :: rest) now
      (mkRun (Returned true)
         (prelude url interval ++ snd (examine expected (get_answer s)))
         (now + step_time interval s)).

Hypothesis P_escapes :
  forall s rest now e,
    now - start <= budget retries interval ->
    fst (examine expected (get_answer s)) = Escapes e ->
    P (s :: rest) now
      (mkRun (Raised e)
         (prelude url interval ++ snd (examine expected (get_answer s)))
         (now + Z.max 0 interval * usec + sleep_lag s)).

Hypothesis P_again :
  forall s rest now,
    now - start <= budget retries interval ->
    fst (examine expected (get_answer s)) = Again ->
    P rest (now + step_time interval s)
      (wait_loop url expected retries interval start rest
         (now + step_time interval s)) ->
    P (s :: rest) now
      (after (prelude url interval ++ snd (examine expected (get_answer s)))
         (wait_loop url expected retries interval start rest
            (now + step_time interval s))).

(** Every run of the loop is one of: expired, starved, a match, an escaping
    exception, or one more round followed by a run on the rest. *)
Lemma wait_loop_cases (script : list poll_step) :
  forall now,
    P script now (wait_loop url expected retries interval start script now).
Proof.
  induction script as [|s rest IH]; intros now;
    destruct (Z.le_gt_cases (now - start) (budget retries interval))
      as [Hin|Hlate];
    try (rewrite wait_loop_expired by (unfold budget in Hlate; lia);
         now apply P_expired).
  - rewrite wait_loop_starved by exact Hin. now apply P_starved.
  - destruct (fst (examine expected (get_answer s))) as [| |e] eqn:Hv.
    + rewrite wait_loop_step by exact Hin.
      pose proof (P_match s rest now Hin Hv) as HP.
      destruct (examine expected (get_answer s)) as [v logged].
      simpl in Hv. subst v. exact HP.
    + rewrite wait_loop_again by assumption. now apply P_again.
    + rewrite wait_loop_step by exact Hin.
      pose proof (P_escapes s rest now e Hin Hv) as HP.
      destruct (examine expected (get_answer s)) as [v logged].
      simpl in Hv. subst v. exact HP.
Qed.

End LoopCases.

(** ** More about [wait_for_deploy] *)

Lemma log_is_not_io (e : event) : is_log e = true -> is_io e = false.
Proof. now destruct e. Qed.

Lemma logged_no_io (expected : string) (answer : get_reply) :
  filter is_io (snd (examine expected answer)) = [].
Proof.
  apply filter_logs_nil; [exact log_is_not_io|apply examine_logs].
Qed.

Lemma count_round_gets (url expected : string) (interval : Z)
  (answer : get_reply) :
  count is_get (prelude url interval ++ snd (examine expected answer)) = 1%nat.
Proof. now rewrite count_app, count_logged_gets. Qed.

Lemma match_confirms (expected : string) (answer : get_reply) :
  fst (examine expected answer) = Match -> confirms expected answer = true.
Proof.
  rewrite examine_verdict. destruct answer as [|st body]; [discriminate|].
  now destruct (confirms expected (GetResponse st body)).
Qed.

Lemma again_no_match (expected : string) (answer : get_reply) :
  fst (examine expected answer) = Again -> no_match expected answer = true.
Proof.
  rewrite examine_verdict. destruct answer as [|st body]; [discriminate|].
  unfold no_match. now destruct (confirms expected (GetResponse st body)).
Qed.

Lemma escapes_get_raises (expected : string) (answer : get_reply) (e : exn) :
  fst (examine expected answer) = Escapes e ->
  e = ClientError /\ answer = GetRaises.
Proof.
  rewrite examine_verdict. destruct answer as [|st body].
  - intros Heq. injection Heq as <-. now split.
  - now destruct (confirms expected (GetResponse st body)).
Qed.

(** The sleeps and GETs of the loop are its rounds. *)
Lemma wait_loop_rounds
  (url expected : string) (retries interval start : Z)
  (script : list poll_step) (now : Z) :
  let r := wait_loop url expected retries interval start script now in
  filter is_io (trace r) = rounds url interval (count is_get (trace r)).
Proof.
  revert now.
  apply (wait_loop_cases url expected retries interval start
           (fun _ _ r =>
              filter is_io (trace r)
              = rounds url interval (count is_get (trace r)))).
  - reflexivity.
  - reflexivity.
  - intros s rest t _ _. cbn [trace].
    rewrite count_round_gets, filter_app, logged_no_io. reflexivity.
  - intros s rest t e _ _. cbn [trace].
    rewrite count_round_gets, filter_app, logged_no_io. reflexivity.
  - intros s rest t _ _ IH. rewrite trace_after, count_app, count_round_gets.
    rewrite !filter_app, logged_no_io, IH. reflexivity.
Qed.

(** X1: in a run of [wait_for_deploy] the sleeps and the GETs alternate,
    a sleep first: every GET comes right after a sleep of [interval]
    seconds, goes to the given URL and asks for JSON, and nothing else
    is slept or polled. *)
Theorem wait_for_deploy_sleeps_before_each_get
  (url expected : string) (retries interval : Z)
  (script : list poll_step) (now : Z) :
  let r := wait_for_deploy url expected retries interval script now in
  filter is_io (trace r) = rounds url interval (count is_get (trace r)).
Proof.
  unfold wait_for_deploy. apply wait_loop_rounds.
Qed.

(** X2: [wait_for_deploy] returns [True] only on a match: the answer to
    its last GET had status 200 and an [app.git_sha] that is non-empty
    and equal to the expected sha, and the answers before it were
    responses that did not confirm. *)
Theorem wait_for_deploy_true_only_on_match
  (url expected : string) (retries interval : Z)
  (script : list poll_step) (now : Z) :
  let r := wait_for_deploy url expected retries interval script now in
  let n := count is_get (trace r) in
  res r = Returned true ->
  (1 <= n)%nat
  /\ (exists s,
        nth_error script (n - 1) = Some s
        /\ confirms expected (get_answer s) = true)
  /\ Forall (fun a => no_match expected a = true) (polled (n - 1) script).
Proof.
  unfold wait_for_deploy.
  apply (wait_loop_cases url expected retries interval now
           (fun script _ r =>
              res r = Returned true ->
              (1 <= count is_get (trace r))%nat
              /\ (exists s,
                    nth_error script (count is_get (trace r) - 1) = Some s
                    /\ confirms expected (get_answer s) = true)
              /\ Forall (fun a => no_match expected a = true)
                   (polled (count is_get (trace r) - 1) script))).
  - discriminate.
  - discriminate.
  - intros s rest t _ Hv _. cbn [trace]. rewrite count_round_gets.
    split; [lia|]. split; [|constructor].
    exists s. split; [reflexivity|now apply match_confirms].
  - discriminate.
  - intros s rest t _ Hv IH Htrue.
    rewrite res_after in Htrue.
    rewrite trace_after, count_app, count_round_gets.
    destruct (IH Htrue) as (Hn & (s' & Hnth & Hs') & Hbefore).
    destruct (count is_get _) as [|k]; [lia|].
    simpl in *. rewrite Nat.sub_0_r in *.
    split; [lia|]. split.
    + now exists s'.
    + unfold polled in *. simpl. constructor; [now apply again_no_match|].
      exact Hbefore.
Qed.

Lemma wait_for_deploy_true_only_on_match_witness :
  let script := [mkStep 0 (answer_sha "old") 0;
                 mkStep 0 (answer_sha "abc123") 0] in
  let r := wait_for_deploy "https://x/status" "abc123" 2 1 script 0 in
  let n := count is_get (trace r) in
  (1 <= n)%nat
  /\ (exists s,
        nth_error script (n - 1) = Some s
        /\ confirms "abc123" (get_answer s) = true)
  /\ Forall (fun a => no_match "abc123" a = true) (polled (n - 1) script).
Proof.
  apply (wait_for_deploy_true_only_on_match "https://x/status" "abc123" 2 1
           [mkStep 0 (answer_sha "old") 0;
            mkStep 0 (answer_sha "abc123") 0] 0).
  reflexivity.
Defined.

(** Only the client error of a GET leaves the loop, and the loop never
    leaves the interpreted part of the language. *)
Lemma wait_for_deploy_only_client_error
  (url expected : string) (retries interval : Z)
  (script : list poll_step) (now : Z) :
  match res (wait_for_deploy url expected retries interval script now) with
  | Raised e => e = ClientError
  | Beyond => False
  | _ => True
  end.
Proof.
  unfold wait_for_deploy.
  apply (wait_loop_cases url expected retries interval now
           (fun _ _ r =>
              match res r with
              | Raised e => e = ClientError
              | Beyond => False
              | _ => True
              end)); try (intros; exact I).
  - intros s rest t e _ Hv. now apply escapes_get_raises in Hv.
  - intros s rest t _ _ IH. now rewrite res_after.
Qed.

(** X3: an exception of the GET itself is not absorbed, and nothing else
    leaves the poller: when a run raises, it raises the client error of
    its last GET; when it does not, every GET it made was answered. *)
Theorem wait_for_deploy_raises_only_on_get_error
  (url expected : string) (retries interval : Z)
  (script : list poll_step) (now : Z) :
  let r := wait_for_deploy url expected retries interval script now in
  let n := count is_get (trace r) in
  match res r with
  | Raised e =>
      e = ClientError
      /\ (1 <= n)%nat
      /\ exists s,
           nth_error script (n - 1) = Some s /\ get_answer s = GetRaises
  | _ => Forall (fun a => a <> GetRaises) (polled n script)
  end.
Proof.
  unfold wait_for_deploy.
  apply (wait_loop_cases url expected retries interval now
           (fun script _ r =>
              match res r with
              | Raised e =>
                  e = ClientError
                  /\ (1 <= count is_get (trace r))%nat
                  /\ exists s,
                       nth_error script (count is_get (trace r) - 1) = Some s
                       /\ get_answer s = GetRaises
              | _ => Forall (fun a => a <> GetRaises)
                       (polled (count is_get (trace r)) script)
              end)).
  - intros; constructor.
  - intros; constructor.
  - intros s rest t _ Hv. cbn [res trace]. rewrite count_round_gets.
    unfold polled. simpl. constructor; [|destruct rest; constructor].
    intros Hraise. rewrite Hraise in Hv. discriminate.
  - intros s rest t e _ Hv. cbn [res trace]. rewrite count_round_gets.
    apply escapes_get_raises in Hv as [-> Hraise].
    split; [reflexivity|]. split; [lia|]. now exists s.
  - intros s rest t _ Hv IH.
    rewrite res_after, trace_after, count_app, count_round_gets.
    assert (Hs : get_answer s <> GetRaises).
    { intros Hraise. rewrite Hraise in Hv. discriminate. }
    destruct (res (wait_loop _ _ _ _ _ rest _)) as [b|e| |].
    + unfold polled in *. simpl. now constructor.
    + destruct IH as (He & Hn & s' & Hnth & Hs').
      split; [exact He|]. split; [lia|].
      destruct (count is_get _) as [|k]; [lia|].
      simpl in *. rewrite Nat.sub_0_r in *. now exists s'.
    + unfold polled in *. simpl. now constructor.
    + unfold polled in *. simpl. now constructor.
Qed.

(** X4: [wait_for_deploy] gives up only once the budget is spent: when it
    returns [False], more than [retries * interval] seconds have passed
    since it began, whatever the answers were. *)
Theorem wait_for_deploy_false_only_after_budget
  (url expected : string) (retries interval : Z)
  (script : list poll_step) (now : Z) :
  let r := wait_for_deploy url expected retries interval script now in
  res r = Returned false ->
  budget retries interval < clock r - now
  /\ Forall (fun a => no_match expected a = true)
       (polled (count is_get (trace r)) script).
Proof.
  unfold wait_for_deploy.
  apply (wait_loop_cases url expected retries interval now
           (fun script _ r =>
              res r = Returned false ->
              budget retries interval < clock r - now
              /\ Forall (fun a => no_match expected a = true)
                   (polled (count is_get (trace r)) script))).
  - intros script' t Hlate _. simpl. split; [exact Hlate|constructor].
  - discriminate.
  - discriminate.
  - discriminate.
  - intros s rest t _ Hv IH Hfalse.
    rewrite res_after in Hfalse.
    rewrite clock_after, trace_after, count_app, count_round_gets.
    destruct (IH Hfalse) as [Hpast Hall]. split; [exact Hpast|].
    unfold polled in *. simpl. constructor; [now apply again_no_match|].
    exact Hall.
Qed.

Lemma wait_for_deploy_false_only_after_budget_witness :
  let script := [mkStep 0 (GetResponse 503 JsonRaises) 700000;
                 mkStep 0 (answer_sha "old") 700000;
                 mkStep 0 (answer_sha "abc123") 0] in
  let r := wait_for_deploy "https://x/status" "abc123" 2 1 script 0 in
  budget 2 1 < clock r - 0
  /\ Forall (fun a => no_match "abc123" a = true)
       (polled (count is_get (trace r)) script).
Proof.
  apply (wait_for_deploy_false_only_after_budget "https://x/status" "abc123"
           2 1
           [mkStep 0 (GetResponse 503 JsonRaises) 700000;
            mkStep 0 (answer_sha "old") 700000;
            mkStep 0 (answer_sha "abc123") 0] 0).
  reflexivity.
Defined.

(** When every round lasts at least [d], the rounds after the first fit
    in what was left of the budget. *)
Lemma wait_loop_count_bound
  (url expected : string) (retries interval start d : Z)
  (script : list poll_step) :
  0 < d ->
  forall now,
    Forall (fun s => d <= step_time interval s) script ->
    let r := wait_loop url expected retries interval start script now in
    (now - start <= budget retries interval ->
     (Z.of_nat (count is_get (trace r)) - 1) * d
     <= budget retries interval - (now - start))
    /\ (budget retries interval < now - start ->
        count is_get (trace r) = 0%nat).
Proof.
  intros Hd now.
  apply (wait_loop_cases url expected retries interval start
           (fun script now r =>
              Forall (fun s => d <= step_time interval s) script ->
              (now - start <= budget retries interval ->
               (Z.of_nat (count is_get (trace r)) - 1) * d
               <= budget retries interval - (now - start))
              /\ (budget retries interval < now - start ->
                  count is_get (trace r) = 0%nat))).
  - intros script' t Hlate _. split; [lia|reflexivity].
  - intros t Hin _. cbn [trace]. change (count is_get []) with 0%nat.
    split; lia.
  - intros s rest t Hin _ _. cbn [trace]. rewrite count_round_gets.
    split; lia.
  - intros s rest t e Hin _ _. cbn [trace]. rewrite count_round_gets.
    split; lia.
  - intros s rest t Hin _ IH Hall.
    inversion Hall as [|? ? Hs Hrest]; subst.
    rewrite trace_after, count_app, count_round_gets.
    destruct (IH Hrest) as [Hwithin Hpast].
    split; [intros _|lia].
    destruct (Z.le_gt_cases (t + step_time interval s - start)
                (budget retries interval)) as [Hin'|Hlate'].
    + specialize (Hwithin Hin'). nia.
    + rewrite (Hpast Hlate'). lia.
Qed.

Lemma well_timed_step (interval : Z) (s : poll_step) :
  0 < interval -> well_timed s -> interval * usec <= step_time interval s.
Proof.
  intros Hint [Hlag Hget]. unfold step_time. rewrite Z.max_r by lia. lia.
Qed.

Lemma overshoots_step (interval : Z) (s : poll_step) :
  0 < interval -> overshoots s -> interval * usec + 1 <= step_time interval s.
Proof.
  intros Hint [Hlag Hget]. unfold step_time. rewrite Z.max_r by lia. lia.
Qed.

(** X5: whatever the answers, a run of [wait_for_deploy] with a positive
    interval makes at most [retries + 1] GETs, and none at all when
    [retries] is negative. *)
Theorem wait_for_deploy_poll_bound
  (url expected : string) (retries interval : Z)
  (script : list poll_step) (now : Z) :
  0 < interval ->
  Forall well_timed script ->
  let r := wait_for_deploy url expected retries interval script now in
  Z.of_nat (count is_get (trace r)) <= Z.max 0 (retries + 1).
Proof.
  intros Hint Htimed r. pose proof usec_pos as Husec.
  assert (Hd : 0 < interval * usec) by nia.
  assert (Hall : Forall (fun s => interval * usec <= step_time interval s)
                   script).
  { eapply Forall_impl; [|exact Htimed]. intros s. now apply well_timed_step. }
  destruct (wait_loop_count_bound url expected retries interval now
              (interval * usec) script Hd now Hall) as [Hwithin Hpast].
  fold (wait_for_deploy url expected retries interval script now) in *.
  fold r in Hwithin, Hpast. unfold budget in *.
  destruct (Z.le_gt_cases (now - now) (retries * interval * usec))
    as [Hin|Hlate].
  - specialize (Hwithin Hin).
    assert (0 <= retries) by nia.
    assert (Z.of_nat (count is_get (trace r)) - 1 <= retries) by nia.
    lia.
  - rewrite (Hpast Hlate). lia.
Qed.

Lemma wait_for_deploy_poll_bound_witness :
  let script := [mkStep 0 (GetResponse 503 JsonRaises) 0;
                 mkStep 0 (answer_sha "old") 0;
                 mkStep 0 (GetResponse 404 JsonRaises) 0;
                 mkStep 0 (answer_sha "abc123") 0] in
  let r := wait_for_deploy "https://x/status" "abc123" 2 1 script 0 in
  Z.of_nat (count is_get (trace r)) <= Z.max 0 (2 + 1).
Proof.
  apply (wait_for_deploy_poll_bound "https://x/status" "abc123" 2 1
           [mkStep 0 (GetResponse 503 JsonRaises) 0;
            mkStep 0 (answer_sha "old") 0;
            mkStep 0 (GetResponse 404 JsonRaises) 0;
            mkStep 0 (answer_sha "abc123") 0] 0).
  - lia.
  - repeat constructor; simpl; lia.
Defined.

(** X6: when every sleep lasts longer than the interval, however little,
    a run with [retries >= 1] makes at most [retries] GETs: the round
    that would be number [retries + 1] begins after the budget. *)
Theorem wait_for_deploy_poll_bound_overshoot
  (url expected : string) (retries interval : Z)
  (script : list poll_step) (now : Z) :
  0 < interval ->
  1 <= retries ->
  Forall overshoots script ->
  let r := wait_for_deploy url expected retries interval script now in
  Z.of_nat (count is_get (trace r)) <= retries.
Proof.
  intros Hint Hret Hover r. pose proof usec_pos as Husec.
  assert (Hd : 0 < interval * usec + 1) by nia.
  assert (Hall : Forall (fun s => interval * usec + 1 <= step_time interval s)
                   script).
  { eapply Forall_impl; [|exact Hover]. intros s. now apply overshoots_step. }
  destruct (wait_loop_count_bound url expected retries interval now
              (interval * usec + 1) script Hd now Hall) as [Hwithin _].
  fold (wait_for_deploy url expected retries interval script now) in *.
  fold r in Hwithin. unfold budget in *.
  assert (Hin : now - now <= retries * interval * usec) by nia.
  specialize (Hwithin Hin). nia.
Qed.

Lemma wait_for_deploy_poll_bound_overshoot_witness :
  let script := [mkStep 1 (GetResponse 503 JsonRaises) 0;
                 mkStep 1 (answer_sha "old") 0;
                 mkStep 1 (answer_sha "abc123") 0] in
  let r := wait_for_deploy "https://x/status" "abc123" 2 1 script 0 in
  Z.of_nat (count is_get (trace r)) <= 2.
Proof.
  apply (wait_for_deploy_poll_bound_overshoot "https://x/status" "abc123" 2 1
           [mkStep 1 (GetResponse 503 JsonRaises) 0;
            mkStep 1 (answer_sha "old") 0;
            mkStep 1 (answer_sha "abc123") 0] 0).
  - lia.
  - lia.
  - repeat constructor; simpl; lia.
Defined.

(** A run that is still looping when the answers run out has fitted one
    round per answer into the budget. *)
Lemma wait_loop_starved_rounds
  (url expected : string) (retries interval start d : Z)
  (script : list poll_step) :
  forall now,
    Forall (fun s => d <= step_time interval s) script ->
    res (wait_loop url expected retries interval start script now) = Starved ->
    Z.of_nat (List.length script) * d
    <= budget retries interval - (now - start).
Proof.
  apply (wait_loop_cases url expected retries interval start
           (fun script now r =>
              Forall (fun s => d <= step_time interval s) script ->
              res r = Starved ->
              Z.of_nat (List.length script) * d
              <= budget retries interval - (now - start))).
  - discriminate.
  - intros t Hin _ _. simpl. lia.
  - discriminate.
  - discriminate.
  - intros s rest t Hin _ IH Hall Hstarved.
    inversion Hall as [|? ? Hs Hrest]; subst.
    rewrite res_after in Hstarved. specialize (IH Hrest Hstarved).
    simpl List.length. rewrite Nat2Z.inj_succ. lia.
Qed.

(** X23: with a positive interval, [wait_for_deploy] ends within
    [retries + 1] rounds whatever the answers are: given that many
    answers it returns or raises, and is not left looping. *)
Theorem wait_for_deploy_terminates
  (url expected : string) (retries interval : Z)
  (script : list poll_step) (now : Z) :
  0 < interval ->
  Forall well_timed script ->
  retries < Z.of_nat (List.length script) ->
  let r := wait_for_deploy url expected retries interval script now in
  (exists b, res r = Returned b) \/ res r = Raised ClientError.
Proof.
  intros Hint Htimed Hlen r. pose proof usec_pos as Husec.
  assert (Hall : Forall (fun s => interval * usec <= step_time interval s)
                   script).
  { eapply Forall_impl; [|exact Htimed]. intros s. now apply well_timed_step. }
  pose proof (wait_loop_starved_rounds url expected retries interval now
                (interval * usec) script now Hall) as Hstarved.
  pose proof (wait_for_deploy_only_client_error url expected
                retries interval script now) as Hraise.
  fold (wait_for_deploy url expected retries interval script now) in *.
  fold r in Hstarved, Hraise.
  destruct (res r) as [b|e| |] eqn:Hres.
  - left. now exists b.
  - right. now rewrite Hraise.
  - exfalso. specialize (Hstarved eq_refl). unfold budget in Hstarved.
    assert (0 < interval * usec) by nia. nia.
  - exfalso. exact Hraise.
Qed.

Lemma wait_for_deploy_terminates_witness :
  let script := [mkStep 0 (GetResponse 503 JsonRaises) 0;
                 mkStep 0 (answer_sha "old") 0;
                 mkStep 0 GetRaises 0] in
  let r := wait_for_deploy "https://x/status" "abc123" 2 1 script 0 in
  (exists b, res r = Returned b) \/ res r = Raised ClientError.
Proof.
  apply (wait_for_deploy_terminates "https://x/status" "abc123" 2 1
           [mkStep 0 (GetResponse 503 JsonRaises) 0;
            mkStep 0 (answer_sha "old") 0;
            mkStep 0 GetRaises 0] 0).
  - lia.
  - repeat constructor; simpl; lia.
  - simpl. lia.
Defined.

(** ** More about [trigger_build] *)

(** X7: for a base URL without braces, and credentials that are [None]
    or a pair, the one PUT of [trigger_build] goes to the base URL
    followed by the queue path, the plan key, a hyphen and the build
    number in decimal; braces in the plan key are left as they are. *)
Theorem trigger_build_plain_base_url
  (wr : WatchRequest) (bamboo_url : string) (creds : credentials)
  (auth : option (string * string)) (reply : put_reply) (now : Z) :
  brace_free bamboo_url = true ->
  build_auth creds = Returned auth ->
  filter is_put
    (trace (trigger_build (PayOne wr) bamboo_url creds reply now))
  = [EvPut (bamboo_url ++ "/rest/api/latest/queue/" ++ plan_key wr ++ "-"
            ++ str_of_int (build_number wr))
       json_headers auth].
Proof.
  intros Hfree Hauth.
  now rewrite trigger_build_puts, (build_url_plain wr _ Hfree), Hauth.
Qed.

Lemma trigger_build_plain_base_url_witness :
  filter is_put
    (trace (trigger_build
              (PayOne (mkWatchRequest "https://x/status" "abc123" "{REL}" (-7)))
              "http://ci:8085/bamboo" (CredTuple ["bob"; "pw"])
              (PutResponse 200) 0))
  = [EvPut "http://ci:8085/bamboo/rest/api/latest/queue/{REL}--7"
       json_headers (Some ("bob", "pw"))].
Proof.
  exact (trigger_build_plain_base_url
           (mkWatchRequest "https://x/status" "abc123" "{REL}" (-7))
           "http://ci:8085/bamboo" (CredTuple ["bob"; "pw"])
           (Some ("bob", "pw")) (PutResponse 200) 0 eq_refl eq_refl).
Defined.

Lemma handle_put_no_io (reply : put_reply) (now : Z) :
  filter is_io (trace (handle_put reply now)) = [].
Proof.
  destruct reply as [|st]; simpl; [reflexivity|].
  destruct (st =? 400); [reflexivity|].
  now destruct (st =? 200).
Qed.

Lemma trigger_build_no_io js bamboo_url creds reply now :
  filter is_io (trace (trigger_build js bamboo_url creds reply now)) = [].
Proof.
  unfold trigger_build.
  destruct (build_url js bamboo_url) as [url|e| |]; simpl; try reflexivity.
  destruct (build_auth creds) as [auth|e| |]; simpl; try reflexivity.
  apply handle_put_no_io.
Qed.

(** X8: whatever its arguments and whatever the reply, [trigger_build]
    makes at most one PUT, never sleeps and never polls; and it returns
    normally only after having made its PUT. *)
Theorem trigger_build_at_most_one_put
  (js : payload) (bamboo_url : string) (creds : credentials)
  (reply : put_reply) (now : Z) :
  let r := trigger_build js bamboo_url creds reply now in
  (count is_put (trace r) <= 1)%nat
  /\ filter is_io (trace r) = []
  /\ match res r with
     | Returned _ => count is_put (trace r) = 1%nat
     | _ => True
     end.
Proof.
  intros r. subst r. split; [|split].
  - unfold count. rewrite trigger_build_puts.
    destruct (build_url js bamboo_url) as [url|e| |]; simpl; try lia.
    destruct (build_auth creds) as [auth|e| |]; simpl; lia.
  - apply trigger_build_no_io.
  - unfold count. rewrite trigger_build_puts. unfold trigger_build.
    destruct (build_url js bamboo_url) as [url|e| |]; simpl; try exact I.
    destruct (build_auth creds) as [auth|e| |]; simpl; try exact I.
    now destruct (res (handle_put reply now)).
Qed.

(** X9: what lines 106-107 make of the credentials, once the URL is
    built: [None] and the empty tuple send the PUT without
    authentication; a tuple of one raises [IndexError] before any PUT; a
    longer tuple authenticates with its first two items. *)
Theorem trigger_build_credentials
  (js : payload) (bamboo_url url : string) (creds : credentials)
  (reply : put_reply) (now : Z) :
  build_url js bamboo_url = Returned url ->
  let r := trigger_build js bamboo_url creds reply now in
  match creds with
  | CredNone | CredTuple [] =>
      filter is_put (trace r) = [EvPut url json_headers None]
  | CredTuple [_] =>
      res r = Raised IndexError /\ filter is_put (trace r) = []
  | CredTuple (user :: password :: _) =>
      filter is_put (trace r) = [EvPut url json_headers (Some (user, password))]
  end.
Proof.
  intros Hurl r. subst r.
  destruct creds as [|[|user [|password more]]];
    rewrite ?trigger_build_puts, ?Hurl; try reflexivity.
  unfold trigger_build. rewrite Hurl. split; [reflexivity|].
  reflexivity.
Qed.

Lemma trigger_build_credentials_witness :
  let r := trigger_build
             (PayOne (mkWatchRequest "https://x/status" "abc123" "REL" 42))
             "http://ci" (CredTuple ["bob"]) (PutResponse 200) 0 in
  res r = Raised IndexError /\ filter is_put (trace r) = [].
Proof.
  exact (trigger_build_credentials
           (PayOne (mkWatchRequest "https://x/status" "abc123" "REL" 42))
           "http://ci" "http://ci/rest/api/latest/queue/REL-42"
           (CredTuple ["bob"]) (PutResponse 200) 0 eq_refl).
Defined.

(** ** More about [poll_for_up] *)

Lemma wait_for_deploy_no_put url expected retries interval script now :
  filter is_put (trace (wait_for_deploy url expected retries interval
                          script now)) = [].
Proof.
  apply wait_for_deploy_trace_only; auto using log_is_not_put.
Qed.

Lemma io_of_get (e : event) : is_get e = true -> is_io e = true.
Proof. destruct e; simpl; auto; discriminate. Qed.

(** X10: in a run of [poll_for_up] on a watch request, all polling comes
    before the trigger: the trace is the log line, the trace of
    [wait_for_deploy], which holds no PUT, and a rest that holds no
    sleep and no GET. *)
Theorem poll_for_up_polls_then_triggers
  (wr : WatchRequest) (bamboo_url : string) (creds : credentials)
  (retries interval : Z) (script : list poll_step) (reply : put_reply)
  (now : Z) :
  let waited :=
    wait_for_deploy (info_url wr) (git_sha wr) retries interval script now in
  let r := poll_for_up (PayOne wr) bamboo_url creds retries interval
             script reply now in
  exists rest,
    trace r
    = (EvLog INFO "Waiting for service %s to boot" [ArgPayload (PayOne wr)]
       :: trace waited ++ rest)%list
    /\ filter is_put (trace waited) = []
    /\ filter is_io rest = [].
Proof.
  intros waited r. subst r. unfold poll_for_up. fold waited.
  rewrite !trace_after.
  eexists. split; [reflexivity|]. split.
  - apply wait_for_deploy_no_put.
  - destruct (res waited) as [[|]|e| |]; try reflexivity.
    rewrite trace_after. cbn [app filter is_io is_sleep is_get orb].
    apply trigger_build_no_io.
Qed.

(** ** The decorators *)

(** X11: [api_error_handler] never lets a JSON decode error out, whatever
    the wrapped function does; wrapping twice is wrapping once; and an
    outcome of the wrapped function that is not a decode error is passed
    on untouched, effects included. *)
Theorem api_error_handler_never_raises_decode_error
  (f : Request -> handled) (request : Request) :
  fst (api_error_handler f request) <> Raised JSONDecodeError
  /\ api_error_handler (api_error_handler f) request
     = api_error_handler f request
  /\ match fst (f request) with
     | Raised JSONDecodeError => True
     | _ => api_error_handler f request = f request
     end.
Proof.
  unfold api_error_handler.
  destruct (f request) as [[resp|e| |] tr]; simpl;
    try (repeat split; discriminate).
  destruct e; simpl; repeat split; discriminate.
Qed.

(** X12: in [watcher_handler] the inner decorator has nothing to catch:
    the handler is the same function as [consumes] applied to the bare
    body. *)
Theorem watcher_handler_error_handler_is_idle
  (mm : Marshmallow) (app : Config) (request : Request) :
  watcher_handler mm app request
  = consumes (BuildWatcherSchema mm) 400 (watcher_body app) request.
Proof.
  unfold watcher_handler, consumes.
  destruct (to_load request) as [data|e| |]; [|reflexivity..].
  destruct (BuildWatcherSchema mm data (is_list data)) as [loaded err].
  destruct (truthy err); reflexivity.
Qed.

(** X13: for a method other than GET, PUT, POST and PATCH the decorator
    raises [UnboundLocalError]: the schema is not consulted and the
    wrapped function is not called. *)
Theorem consumes_unknown_method
  (schema : Schema) (err_status : Z) (f : Request -> handled)
  (request : Request) :
  known_method (req_method request) = false ->
  consumes schema err_status f request = (Raised UnboundLocalError, []).
Proof.
  unfold known_method, consumes, to_load. intros Hm.
  apply orb_false_elim in Hm as [Hm Hpatch].
  apply orb_false_elim in Hm as [Hm Hpost].
  apply orb_false_elim in Hm as [Hget Hput].
  now rewrite Hget, Hput, Hpost, Hpatch.
Qed.

Lemma consumes_unknown_method_witness :
  consumes (BuildWatcherSchema plain_fields) 400 (watcher_body sample_config)
    (mkRequest "DELETE" (Some "application/json") []
       (JsonValue (JObj sample_body)) [] None)
  = (Raised UnboundLocalError, []).
Proof.
  exact (consumes_unknown_method (BuildWatcherSchema plain_fields) 400
           (watcher_body sample_config)
           (mkRequest "DELETE" (Some "application/json") []
              (JsonValue (JObj sample_body)) [] None) eq_refl).
Defined.

Lemma to_load_decode_error (request : Request) :
  to_load request = Raised JSONDecodeError
  <-> ((req_method request =? "PUT")%string
       || (req_method request =? "POST")%string
       || (req_method request =? "PATCH")%string) = true
      /\ json_content request = true
      /\ req_json request = JsonRaises.
Proof.
  unfold to_load, json_content.
  destruct (req_method request =? "GET")%string eqn:Hget.
  - apply String.eqb_eq in Hget. rewrite Hget. simpl.
    split; [discriminate|]. intros [Hm _]. discriminate.
  - destruct ((req_method request =? "PUT")%string
              || (req_method request =? "POST")%string
              || (req_method request =? "PATCH")%string).
    + destruct (contains _ _).
      * destruct (req_json request) as [|v];
          [now repeat split|].
        split; [discriminate|]. now intros (_ & _ & H).
      * split; [discriminate|]. now intros (_ & H & _).
    + split; [discriminate|]. now intros (H & _).
Qed.

(** X14: [watcher_handler] lets a JSON decode error out exactly when the
    method is PUT, POST or PATCH, the Content-Type names JSON and the
    body does not decode; a GET, or a body sent as a form, never does. *)
Theorem watcher_handler_decode_error_iff
  (mm : Marshmallow) (app : Config) (request : Request) :
  fst (watcher_handler mm app request) = Raised JSONDecodeError
  <-> ((req_method request =? "PUT")%string
       || (req_method request =? "POST")%string
       || (req_method request =? "PATCH")%string) = true
      /\ json_content request = true
      /\ req_json request = JsonRaises.
Proof.
  rewrite <- to_load_decode_error.
  unfold watcher_handler, consumes.
  destruct (to_load request) as [data|e| |]; simpl;
    try (split; [discriminate|discriminate]).
  - destruct (BuildWatcherSchema mm data (is_list data)) as [loaded err].
    destruct (truthy err); simpl; split; discriminate.
  - split; intros Heq; injection Heq as ->; reflexivity.
Qed.

Lemma prefix_append (needle rest : string) :
  String.prefix needle (needle ++ rest) = true.
Proof.
  induction needle as [|c needle IH]; simpl; [now destruct rest|].
  destruct (ascii_dec c c) as [_|Hne]; [exact IH|now elim Hne].
Qed.

Lemma contains_prefix (needle hay : string) :
  String.prefix needle hay = true -> contains needle hay = true.
Proof. intros Hp. destruct hay; cbn [contains]; now rewrite Hp. Qed.

(** [needle in hay] holds when [needle] occurs somewhere in [hay]. *)
Lemma contains_infix (needle before rest : string) :
  contains needle (before ++ needle ++ rest) = true.
Proof.
  induction before as [|c before IH].
  - change (contains needle (needle ++ rest) = true).
    apply contains_prefix, prefix_append.
  - change (contains needle (String c (before ++ needle ++ rest)) = true).
    cbn [contains]. rewrite IH. apply orb_true_r.
Qed.

(** X15: the Content-Type is matched by containment: a PUT, POST or PATCH
    whose header has [application/json] anywhere in its value, as with a
    charset parameter after it, is read by decoding the body as JSON and
    not from the form fields. *)
Theorem to_load_json_by_containment
  (request : Request) (before rest : string) :
  ((req_method request =? "PUT")%string
   || (req_method request =? "POST")%string
   || (req_method request =? "PATCH")%string) = true ->
  req_content_type request = Some (before ++ "application/json" ++ rest) ->
  to_load request
  = match req_json request with
    | JsonRaises => Raised JSONDecodeError
    | JsonValue v => Returned v
    end.
Proof.
  intros Hm Htype. unfold to_load. rewrite Htype, contains_infix.
  destruct (req_method request =? "GET")%string eqn:Hget.
  - apply String.eqb_eq in Hget. rewrite Hget in Hm. discriminate.
  - now rewrite Hm.
Qed.

Lemma to_load_json_by_containment_witness :
  to_load (mkRequest "PATCH" (Some "application/json; charset=utf-8")
             [("git_sha", "query")] (JsonValue (JObj sample_body))
             [("git_sha", "form")] None)
  = Returned (JObj sample_body).
Proof.
  exact (to_load_json_by_containment
           (mkRequest "PATCH" (Some "application/json; charset=utf-8")
              [("git_sha", "query")] (JsonValue (JObj sample_body))
              [("git_sha", "form")] None)
           EmptyString "; charset=utf-8" eq_refl eq_refl).
Defined.

(** ** More about the handler *)

(** X16: what [watcher_handler] can answer: 200 with an empty object,
    having created exactly one task; or 400 with a non-empty error
    body, having created none.  When it raises instead, it has done
    nothing. *)
Theorem watcher_handler_answers
  (mm : Marshmallow) (app : Config) (request : Request) :
  match watcher_handler mm app request with
  | (Returned resp, effects) =>
      (status resp = 200 /\ body resp = JObj []
       /\ exists js,
            effects
            = [EvCreateTask
                 (mkTask js (BAMBOO_URL app)
                    (CredTuple [BAMBOO_USERNAME app; BAMBOO_PASSWORD app])
                    (MAX_RETRIES app) (RETRY_INTERVAL app))])
      \/ (status resp = 400 /\ truthy (body resp) = true /\ effects = [])
  | (_, effects) => effects = []
  end.
Proof.
  unfold watcher_handler, consumes.
  destruct (to_load request) as [data|e| |]; try reflexivity.
  destruct (BuildWatcherSchema mm data (is_list data)) as [loaded err].
  destruct (truthy err) eqn:Herr.
  - right. now repeat split.
  - left. repeat split. now exists loaded.
Qed.

(** A mapping that loads without error gives a full request, made of the
    four deserialized values. *)
Lemma load_mapping_clean (mm : Marshmallow) (data : list (string * json))
  (loaded : payload) (err : json) :
  load_mapping mm data = (loaded, err) ->
  truthy err = false ->
  exists wr,
    loaded = PayOne wr
    /\ required (Url_deserialize mm) "info_url" data = FieldOk (info_url wr)
    /\ required (String_deserialize mm) "git_sha" data = FieldOk (git_sha wr)
    /\ required (String_deserialize mm) "plan_key" data
       = FieldOk (plan_key wr)
    /\ required (Integer_deserialize mm) "build_number" data
       = FieldOk (build_number wr).
Proof.
  unfold load_mapping.
  destruct (required (Url_deserialize mm) "info_url" data) as [u|mu];
    destruct (required (String_deserialize mm) "git_sha" data) as [g|mg];
    destruct (required (String_deserialize mm) "plan_key" data) as [p|mp];
    destruct (required (Integer_deserialize mm) "build_number" data)
      as [b|mb];
    intros Hload Herr; injection Hload as <- <-; try discriminate.
  exists (mkWatchRequest u g p b). now repeat split.
Qed.

(** X17: when the data to load is a mapping, a task that the handler
    creates always carries one full watch request, whose four fields are
    what the field types made of the values found under the four names;
    so [poll_for_up] finds every key it reads. *)
Theorem handler_task_from_mapping
  (mm : Marshmallow) (app : Config) (request : Request)
  (data : list (string * json)) (t : Task) :
  to_load request = Returned (JObj data) ->
  In (EvCreateTask t) (snd (watcher_handler mm app request)) ->
  exists wr,
    task_js t = PayOne wr
    /\ required (Url_deserialize mm) "info_url" data = FieldOk (info_url wr)
    /\ required (String_deserialize mm) "git_sha" data = FieldOk (git_sha wr)
    /\ required (String_deserialize mm) "plan_key" data
       = FieldOk (plan_key wr)
    /\ required (Integer_deserialize mm) "build_number" data
       = FieldOk (build_number wr).
Proof.
  intros Hload. unfold watcher_handler, consumes. rewrite Hload. simpl.
  destruct (load_mapping mm data) as [loaded err] eqn:Hmap.
  destruct (truthy err) eqn:Herr; simpl; [contradiction|].
  intros [Heq|[]]. injection Heq as <-. simpl.
  exact (load_mapping_clean mm data loaded err Hmap Herr).
Qed.

Lemma handler_task_from_mapping_witness :
  exists wr,
    PayOne (mkWatchRequest "https://x/status" "abc123" "REL" 42) = PayOne wr
    /\ required (Url_deserialize plain_fields) "info_url" sample_body
       = FieldOk (info_url wr)
    /\ required (String_deserialize plain_fields) "git_sha" sample_body
       = FieldOk (git_sha wr)
    /\ required (String_deserialize plain_fields) "plan_key" sample_body
       = FieldOk (plan_key wr)
    /\ required (Integer_deserialize plain_fields) "build_number" sample_body
       = FieldOk (build_number wr).
Proof.
  exact (handler_task_from_mapping plain_fields sample_config
           (post_json (JsonValue (JObj sample_body))) sample_body
           (mkTask
              (PayOne (mkWatchRequest "https://x/status" "abc123" "REL" 42))
              "http://ci" (CredTuple ["bob"; "pw"]) 6 10)
           eq_refl (or_introl eq_refl)).
Defined.

(** X18: the schema reads the four declared names and nothing else: two
    mappings that agree on them load to the same payload and the same
    errors, whatever else they hold and in whatever order. *)
Theorem load_mapping_reads_declared_fields
  (mm : Marshmallow) (data data' : list (string * json)) :
  (forall name, In name declared -> assoc name data = assoc name data') ->
  load_mapping mm data = load_mapping mm data'.
Proof.
  intros Hsame. unfold load_mapping, required.
  rewrite (Hsame "info_url"), (Hsame "git_sha"), (Hsame "plan_key"),
    (Hsame "build_number"); simpl; auto 6.
Qed.

Lemma load_mapping_reads_declared_fields_witness :
  load_mapping plain_fields
    (("comment", JStr "nightly") :: rev sample_body)
  = load_mapping plain_fields sample_body.
Proof.
  apply (load_mapping_reads_declared_fields plain_fields
           (("comment", JStr "nightly") :: rev sample_body) sample_body).
  intros name [<-|[<-|[<-|[<-|[]]]]]; reflexivity.
Defined.

Lemma poll_for_up_io
  (wr : WatchRequest) (bamboo_url : string) (creds : credentials)
  (retries interval : Z) (script : list poll_step) (reply : put_reply)
  (now : Z) :
  filter is_io
    (trace (poll_for_up (PayOne wr) bamboo_url creds retries interval
              script reply now))
  = filter is_io
      (trace (wait_for_deploy (info_url wr) (git_sha wr) retries interval
                script now)).
Proof.
  unfold poll_for_up. rewrite !trace_after.
  cbn [app filter is_io is_sleep is_get orb]. rewrite filter_app.
  set (waited := wait_for_deploy _ _ _ _ _ _).
  match goal with
  | |- (_ ++ ?tail)%list = _ => assert (Htail : tail = [])
  end.
  { destruct (res waited) as [[|]|e| |]; try reflexivity.
    rewrite trace_after. cbn [app filter is_io is_sleep is_get orb].
    apply trigger_build_no_io. }
  rewrite Htail. apply app_nil_r.
Qed.

Lemma count_get_of_io (tr : list event) :
  count is_get tr = count is_get (filter is_io tr).
Proof.
  unfold count. induction tr as [|e tr IH]; simpl; [reflexivity|].
  destruct (is_get e) eqn:Hget.
  - rewrite (io_of_get e Hget). simpl. rewrite Hget. simpl. now rewrite IH.
  - destruct (is_io e); simpl; [rewrite Hget|]; exact IH.
Qed.

(** X19: running a task that the handler created sleeps and polls as the
    request and the configuration say: rounds of a sleep of
    [RETRY_INTERVAL] seconds and a GET of the request's [info_url], and
    no other sleep or GET; a payload that is not one request is never
    polled for. *)
Theorem handler_task_polls_info_url
  (mm : Marshmallow) (app : Config) (request : Request) (t : Task)
  (script : list poll_step) (reply : put_reply) (now : Z) :
  In (EvCreateTask t) (snd (watcher_handler mm app request)) ->
  let r := run_task t script reply now in
  filter is_io (trace r)
  = match task_js t with
    | PayOne wr =>
        rounds (info_url wr) (RETRY_INTERVAL app) (count is_get (trace r))
    | _ => []
    end.
Proof.
  intros Hcreated r.
  assert (Ht : task_interval t = RETRY_INTERVAL app).
  { destruct (watcher_handler_effects mm app request) as [Hnone|[js Hone]].
    - rewrite Hnone in Hcreated. contradiction.
    - rewrite Hone in Hcreated. destruct Hcreated as [Heq|[]].
      injection Heq as <-. reflexivity. }
  subst r. unfold run_task. rewrite Ht.
  destruct (task_js t) as [wr|wrs|]; try reflexivity.
  rewrite count_get_of_io, poll_for_up_io, <- count_get_of_io.
  unfold wait_for_deploy. apply wait_loop_rounds.
Qed.

Lemma handler_task_polls_info_url_witness :
  let t := mkTask (PayOne (mkWatchRequest "https://x/status" "abc123" "REL" 42))
             "http://ci" (CredTuple ["bob"; "pw"]) 6 10 in
  let r := run_task t [mkStep 0 (answer_sha "abc123") 0] (PutResponse 200) 0 in
  filter is_io (trace r)
  = rounds "https://x/status" 10 (count is_get (trace r)).
Proof.
  apply (handler_task_polls_info_url plain_fields sample_config
           (post_json (JsonValue (JObj sample_body)))
           (mkTask
              (PayOne (mkWatchRequest "https://x/status" "abc123" "REL" 42))
              "http://ci" (CredTuple ["bob"; "pw"]) 6 10)
           [mkStep 0 (answer_sha "abc123") 0] (PutResponse 200) 0).
  simpl. left. reflexivity.
Defined.

(** ** [resolve_request] *)


(** ** Start-up configuration *)

(** X21: the configuration is built exactly when the three [BAMBOO_]
    variables are set and each of [MAX_RETRIES] and [RETRY_INTERVAL] is
    unset or readable as an integer; its fields are then the values of
    the three variables and the two integers, 6 and 10 when unset. *)
Theorem app_config_succeeds_iff
  (py_int : string -> option Z) (environ : list (string * string))
  (cfg : Config) :
  app_config py_int environ = Returned cfg
  <-> assoc "BAMBOO_URL" environ = Some (BAMBOO_URL cfg)
      /\ assoc "BAMBOO_USERNAME" environ = Some (BAMBOO_USERNAME cfg)
      /\ assoc "BAMBOO_PASSWORD" environ = Some (BAMBOO_PASSWORD cfg)
      /\ setting_gives py_int environ "MAX_RETRIES" 6 (MAX_RETRIES cfg)
      /\ setting_gives py_int environ "RETRY_INTERVAL" 10
           (RETRY_INTERVAL cfg).
Proof.
  unfold app_config, environ_item, int_setting, setting_gives.
  destruct cfg as [url user password retries interval]. simpl.
  destruct (assoc "BAMBOO_URL" environ) as [url'|]; simpl;
    [|split; [discriminate|now intros [H _]]].
  destruct (assoc "BAMBOO_USERNAME" environ) as [user'|]; simpl;
    [|split; [discriminate|now intros (_ & H & _)]].
  destruct (assoc "BAMBOO_PASSWORD" environ) as [password'|]; simpl;
    [|split; [discriminate|now intros (_ & _ & H & _)]].
  assert (Hfields :
    forall r i,
      Returned (mkConfig url' user' password' r i)
      = Returned (mkConfig url user password retries interval)
      <-> Some url' = Some url /\ Some user' = Some user
          /\ Some password' = Some password /\ r = retries /\ i = interval).
  { intros r i. split.
    - intros Heq. injection Heq as -> -> -> -> ->. now repeat split.
    - intros (Hu & Hn & Hp & -> & ->).
      injection Hu as ->. injection Hn as ->. injection Hp as ->.
      reflexivity. }
  destruct (assoc "MAX_RETRIES" environ) as [rt|]; simpl.
  - destruct (py_int rt) as [r|]; simpl.
    + destruct (assoc "RETRY_INTERVAL" environ) as [it|]; simpl.
      * destruct (py_int it) as [i|]; simpl.
        -- rewrite Hfields. split.
           ++ intros (? & ? & ? & -> & ->). now repeat split.
           ++ intros (? & ? & ? & Hr & Hi).
              injection Hr as ->. injection Hi as ->. now repeat split.
        -- split; [discriminate|]. now intros (_ & _ & _ & _ & H).
      * rewrite Hfields. split.
        -- intros (? & ? & ? & -> & <-). now repeat split.
        -- intros (? & ? & ? & Hr & ->).
           injection Hr as ->. now repeat split.
    + split; [discriminate|]. now intros (_ & _ & _ & H & _).
  - destruct (assoc "RETRY_INTERVAL" environ) as [it|]; simpl.
    + destruct (py_int it) as [i|]; simpl.
      * rewrite Hfields. split.
        -- intros (? & ? & ? & <- & ->). now repeat split.
        -- intros (? & ? & ? & -> & Hi).
           injection Hi as ->. now repeat split.
      * split; [discriminate|]. now intros (_ & _ & _ & _ & H).
    + rewrite Hfields. split.
      * intros (? & ? & ? & <- & <-). now repeat split.
      * intros (? & ? & ? & -> & ->). now repeat split.
Qed.

(** X22: when one of the three [BAMBOO_] variables is not set, building
    the configuration raises [KeyError], whatever the two integer
    settings hold. *)
Theorem app_config_missing_variable
  (py_int : string -> option Z) (environ : list (string * string)) :
  assoc "BAMBOO_URL" environ = None
  \/ assoc "BAMBOO_USERNAME" environ = None
  \/ assoc "BAMBOO_PASSWORD" environ = None ->
  app_config py_int environ = Raised KeyError.
Proof.
  unfold app_config, environ_item.
  destruct (assoc "BAMBOO_URL" environ) as [url|]; [|reflexivity].
  destruct (assoc "BAMBOO_USERNAME" environ) as [user|]; [|reflexivity].
  destruct (assoc "BAMBOO_PASSWORD" environ) as [password|]; [|reflexivity].
  intros [H|[H|H]]; discriminate.
Qed.

Lemma app_config_missing_variable_witness :
  app_config plain_int
    [("BAMBOO_URL", "http://ci"); ("BAMBOO_USERNAME", "bob");
     ("MAX_RETRIES", "many")]
  = Raised KeyError.
Proof.
  apply (app_config_missing_variable plain_int
           [("BAMBOO_URL", "http://ci"); ("BAMBOO_USERNAME", "bob");
            ("MAX_RETRIES", "many")]).
  right. right. reflexivity.
Defined.
